(** * ai-agent-builder: the Gemini content service and the model test route

    A shallow embedding of [GeminiContentService] (constructor, session
    lookup, chat orchestration, prompt assembly, suggestion extraction) and
    of the [POST /test-model/:modelId] handler, with the properties of the
    message log, of the error paths and of the suggestion heuristic. *)

From Stdlib Require Import ZArith NArith QArith List String Ascii Bool Lia.
From Stdlib Require Import DecimalString.
From stdpp Require Import base option list strings gmap.

Set Default Proof Using "Type".
Set Warnings "-register-all".
Local Open Scope N_scope.
Local Open Scope nat_scope.

(** ** JavaScript strings

    A JavaScript string is a sequence of UTF-16 code units; [length] counts
    code units and a regular expression without the [u] flag works on code
    units. *)

Definition char16 := N.
Definition jsstring := list char16.

(** A string literal of the source (all of them are ASCII). *)
Definition js (s : string) : jsstring :=
  map N_of_ascii (list_ascii_of_string s).
Arguments js : simpl never.

(** The code units matched by [\s] and removed by [trim]: the WhiteSpace and
    LineTerminator productions of ECMAScript. *)
Definition isWhiteSpace (c : char16) : bool :=
  existsb (N.eqb c)
    [9; 10; 11; 12; 13; 32; 160; 5760; 8232; 8233; 8239; 8287; 12288; 65279]%N
  || ((8192 <=? c)%N && (c <=? 8202)%N).

Definition notDot (c : char16) : bool := negb (c =? 46)%N.

Definition asciiUpper (c : char16) : char16 :=
  if ((97 <=? c) && (c <=? 122))%N then (c - 32)%N else c.

(** Matching a pattern character [p] below 128 under the [i] flag without
    the [u] flag: Canonicalize never maps a code unit from 128 up to one
    below 128, so only the two ASCII cases of a letter match it. *)
Definition ciEq (p c : char16) : bool :=
  ((c <? 128) && (asciiUpper c =? asciiUpper p))%N.

Fixpoint trimStart (s : jsstring) : jsstring :=
  match s with
  | c :: s' => if isWhiteSpace c then trimStart s' else s
  | [] => []
  end.

Definition trimEnd (s : jsstring) : jsstring := rev (trimStart (rev s)).

Definition trim (s : jsstring) : jsstring := trimEnd (trimStart s).

(** [Array.prototype.join] on an array of strings. *)
Fixpoint join (sep : jsstring) (l : list jsstring) : jsstring :=
  match l with
  | [] => []
  | [x] => x
  | x :: l' => x ++ sep ++ join sep l'
  end.

(** ** Regular expressions

    The fragment of the ECMAScript pattern language the service uses:
    character classes, concatenation, alternation, the start anchor and a
    greedy [*] or [+] over one character class.  Matching is the
    backtracking, continuation-passing matcher of the language definition;
    capture groups are left out because only whole matches are read. *)
Module RegExp.

Inductive regex : Type :=
| Empty
| Bol
| Char (p : char16 -> bool)
| Seq (r1 r2 : regex)
| Alt (r1 r2 : regex)
| Star (p : char16 -> bool)
| Plus (p : char16 -> bool).

Definition cont := nat -> jsstring -> option nat.

(** Greedy repetition of a class: take one more code unit first, fall back
    to the continuation when the longer attempt fails. *)
Fixpoint star (p : char16 -> bool) (i : nat) (s : jsstring) (k : cont)
  : option nat :=
  match s with
  | c :: s' =>
      if p c then
        match star p (S i) s' k with
        | Some e => Some e
        | None => k i s
        end
      else k i s
  | [] => k i s
  end.

(** [exec r i s k]: match [r] at index [i], where [s] is the input from [i]
    on; the result is the end index of the whole match. *)
Fixpoint exec (r : regex) (i : nat) (s : jsstring) (k : cont) : option nat :=
  match r with
  | Empty => k i s
  | Bol => if Nat.eqb i 0 then k i s else None
  | Char p =>
      match s with
      | c :: s' => if p c then k (S i) s' else None
      | [] => None
      end
  | Seq r1 r2 => exec r1 i s (fun j t => exec r2 j t k)
  | Alt r1 r2 =>
      match exec r1 i s k with
      | Some e => Some e
      | None => exec r2 i s k
      end
  | Star p => star p i s k
  | Plus p =>
      match s with
      | c :: s' => if p c then star p (S i) s' k else None
      | [] => None
      end
  end.

Definition accept : cont := fun e _ => Some e.

(** One attempt at index [i] (the body of RegExpBuiltinExec). *)
Definition matchAt (r : regex) (i : nat) (s : jsstring) : option nat :=
  exec r i s accept.

(** A literal word under the [i] flag. *)
Definition lit (w : string) : regex :=
  fold_right (fun a r => Seq (Char (ciEq (N_of_ascii a))) r) Empty
    (list_ascii_of_string w).

(** The loop of [String.prototype.match] for a pattern with the [g] flag:
    the matches from left to right, each search starting where the previous
    match ended (one further after an empty match).  [skip] counts the code
    units of the current match still to pass. *)
Fixpoint matchLoop (r : regex) (i skip : nat) (s : jsstring)
  : list jsstring :=
  match skip with
  | S n =>
      match s with
      | [] => []
      | _ :: s' => matchLoop r (S i) n s'
      end
  | O =>
      match matchAt r i s with
      | Some e =>
          take (e - i) s ::
            match s with
            | [] => []
            | _ :: s' => matchLoop r (S i) (pred (e - i)) s'
            end
      | None =>
          match s with
          | [] => []
          | _ :: s' => matchLoop r (S i) 0 s'
          end
      end
  end.

(** [str.match(/r/g)]: [null] when nothing matches. *)
Definition String_match (r : regex) (s : jsstring) : option (list jsstring) :=
  match matchLoop r 0 0 s with
  | [] => None
  | ms => Some ms
  end.

(** The first match of a pattern without the [g] flag, searched from the
    start of the input. *)
Fixpoint search (r : regex) (i : nat) (s : jsstring) : option (nat * nat) :=
  match matchAt r i s with
  | Some e => Some (i, e)
  | None =>
      match s with
      | [] => None
      | _ :: s' => search r (S i) s'
      end
  end.

(** [str.replace(/r/, repl)] for a replacement without [$] patterns. *)
Definition String_replace (r : regex) (repl s : jsstring) : jsstring :=
  match search r 0 s with
  | Some (i, e) => take i s ++ repl ++ drop e s
  | None => s
  end.

End RegExp.

Import RegExp.

(** ** Suggestion extraction *)

(** [/consider\s+([^.]+)/gi] and its four siblings, in source order. *)
Definition patterns : list regex :=
  [ Seq (lit "consider") (Seq (Plus isWhiteSpace) (Plus notDot));
    Seq (lit "try") (Seq (Plus isWhiteSpace) (Plus notDot));
    Seq (lit "you") (Seq (Plus isWhiteSpace)
      (Seq (lit "could") (Seq (Plus isWhiteSpace) (Plus notDot))));
    Seq (lit "i") (Seq (Plus isWhiteSpace)
      (Seq (lit "recommend") (Seq (Plus isWhiteSpace) (Plus notDot))));
    Seq (lit "suggestion:") (Seq (Star isWhiteSpace) (Plus notDot)) ].

(** [/^(consider|try|you could|i recommend|suggestion:)\s*/i] *)
Definition leadingPhrase : regex :=
  Seq Bol
    (Seq (Alt (lit "consider")
         (Alt (lit "try")
         (Alt (lit "you could")
         (Alt (lit "i recommend") (lit "suggestion:")))))
       (Star isWhiteSpace)).

(** All the matches the [patterns.forEach] visits, in its order. *)
Definition allMatches (response : jsstring) : list jsstring :=
  flat_map (fun pattern => matchLoop pattern 0 0 response) patterns.

Definition cleanMatch (m : jsstring) : jsstring :=
  trim (String_replace leadingPhrase [] m).

Definition inBand (cleaned : jsstring) : bool :=
  (10 <? length cleaned) && (length cleaned <? 100).

(** The inner [matches.forEach]: push the cleaned match when its length is
    in the band. *)
Definition pushMatches (suggestions : list jsstring) (matches : list jsstring)
  : list jsstring :=
  fold_left
    (fun acc m => let cleaned := cleanMatch m in
                  if inBand cleaned then acc ++ [cleaned] else acc)
    matches suggestions.

Definition extractSuggestions (response : jsstring) : list jsstring :=
  let suggestions :=
    fold_left
      (fun acc pattern =>
         match String_match pattern response with
         | Some matches => pushMatches acc matches
         | None => acc
         end)
      patterns [] in
  take 5 suggestions.

(** ** Values, errors and the effects of the service *)

(** JSON data as the [any]-typed parameters and columns carry it. *)
Inductive JsValue : Type :=
| JsUndefined
| JsNull
| JsBool (b : bool)
| JsNumber (n : Z)
| JsString (s : jsstring)
| JsArray (l : list JsValue)
| JsObject (fields : list (jsstring * JsValue)).

(** ToBoolean *)
Definition truthy (v : JsValue) : bool :=
  match v with
  | JsUndefined | JsNull => false
  | JsBool b => b
  | JsNumber n => negb (n =? 0)%Z
  | JsString s => negb (Nat.eqb (length s) 0)
  | JsArray _ | JsObject _ => true
  end.

Inductive JsError : Type :=
| Error (message : jsstring)
| TypeError (message : jsstring).

(** [error.message] *)
Definition messageOf (e : JsError) : jsstring :=
  match e with
  | Error m | TypeError m => m
  end.

Inductive Outcome (A : Type) : Type :=
| Returned (a : A)
| Thrown (e : JsError).
Arguments Returned {A} a.
Arguments Thrown {A} e.

Fixpoint assoc (k : jsstring) (fields : list (jsstring * JsValue)) : JsValue :=
  match fields with
  | [] => JsUndefined
  | (k', v) :: rest => if decide (k = k') then v else assoc k rest
  end.

(** [v.name]: a TypeError on [undefined] and [null] (with the text Node
    gives it), the own property of an object, [undefined] on the other
    values. *)
Definition getProp (v : JsValue) (name : jsstring) : Outcome JsValue :=
  match v with
  | JsUndefined =>
      Thrown (TypeError (js "Cannot read properties of undefined (reading '"
                           ++ name ++ js "')"))
  | JsNull =>
      Thrown (TypeError (js "Cannot read properties of null (reading '"
                           ++ name ++ js "')"))
  | JsObject fields => Returned (assoc name fields)
  | _ => Returned JsUndefined
  end.

(** A parameter default [x = d]: it replaces [undefined] only. *)
Definition orDefault (d v : JsValue) : JsValue :=
  match v with
  | JsUndefined => d
  | _ => v
  end.

Definition Date := N.

Record Message : Type := mkMessage {
  role : jsstring;
  content : jsstring;
  timestamp : option jsstring
}.

(** The [messages] JSON column: an array of messages, or any other value. *)
Inductive MessagesColumn : Type :=
| MessagesArray (l : list Message)
| MessagesOther.

(** A row of [contentChatSessions]. *)
Record ChatSession : Type := mkChatSession {
  id : Z;
  userId : jsstring;
  contentPieceId : option Z;
  sessionType : jsstring;
  context : JsValue;
  messages : MessagesColumn;
  updatedAt : Date
}.

Record GeminiContentService : Type := mkService {
  genAI : jsstring;
  model : jsstring
}.

(** What the provider does with one [generateContent] call, [await
    result.response] and [response.text()] taken together. *)
Inductive ProviderOutcome : Type :=
| Replies (text : jsstring)
| Fails (e : JsError).

(** The surroundings of one request: the provider and the readings of
    [new Date()], in the order the code takes them. *)
Record Env : Type := mkEnv {
  generateContent : jsstring -> ProviderOutcome;
  now1 : Date;
  now2 : Date;
  now3 : Date
}.

(** The state the service works on: the table and the log of the prompts
    sent to the provider, with the model each went to. *)
Record World : Type := mkWorld {
  sessions : list ChatSession;
  providerCalls : list (jsstring * jsstring)
}.

(** State and exceptions over a state [S]. *)
Definition St (S A : Type) : Type := S -> Outcome A * S.

Definition ret {S A} (a : A) : St S A := fun w => (Returned a, w).

Definition throw {S A} (e : JsError) : St S A := fun w => (Thrown e, w).

Definition bind {S A B} (m : St S A) (f : A -> St S B) : St S B :=
  fun w =>
    match m w with
    | (Returned a, w') => f a w'
    | (Thrown e, w') => (Thrown e, w')
    end.

Definition lift {S A} (o : Outcome A) : St S A := fun w => (o, w).

(** [try { body } catch (error) { handler }]: what [body] did to the state
    before it threw stays done. *)
Definition tryCatch {S A} (body : St S A) (handler : JsError -> St S A)
  : St S A :=
  fun w =>
    match body w with
    | (Returned a, w') => (Returned a, w')
    | (Thrown e, w') => handler e w'
    end.

Declare Scope service_scope.
Delimit Scope service_scope with service.
Notation "x <- m ;; k" := (bind m (fun x => k))
  (at level 100, m at next level, k at level 200, right associativity)
  : service_scope.
Local Open Scope service_scope.

(** The service runs on a [World]. *)
Abbreviation M := (St World).

Definition nl : jsstring := [10%N].

Definition lines (l : list jsstring) : jsstring := join nl l.

(** ** The constructor *)

Definition constructor (env : gmap string jsstring) : Outcome GeminiContentService :=
  match env !! "GEMINI_API_KEY"%string with
  | None => Thrown (Error (js "GEMINI_API_KEY environment variable is required"))
  | Some key =>
      if Nat.eqb (length key) 0
      then Thrown (Error (js "GEMINI_API_KEY environment variable is required"))
      else Returned {| genAI := key; model := js "gemini-2.5-flash" |}
  end.

(** ** The service *)

Definition notFound : JsError := Error (js "Chat session not found").

Definition failedToProcess : JsError :=
  Error (js "Failed to process chat message").

(** The [where] clause of [getChatSession]. *)
Definition matchesSession (sid : Z) (uid : jsstring) (row : ChatSession)
  : bool :=
  (id row =? sid)%Z && bool_decide (userId row = uid).

Record ChatReply : Type := mkChatReply {
  message : jsstring;
  sessionId : Z;
  suggestions : list jsstring
}.

Inductive ContentLength : Type := short | medium | long.

Definition lengthGuide (contentLength : ContentLength) : jsstring :=
  match contentLength with
  | short => js "300-500 words"
  | medium => js "800-1200 words"
  | long => js "1500-2500 words"
  end.

Record SEOContentParams : Type := mkSEOContentParams {
  title : jsstring;
  contentType : jsstring;
  keywords : list jsstring;
  targetAudience : jsstring;
  contentLength : jsstring;
  tone : jsstring;
  spyfuData : JsValue
}.

Definition basePrompt : jsstring :=
  js "You are an expert content strategist and SEO specialist helping users create high-quality, search-optimized content.".

Section Service.

(** [JSON.stringify (v, null, 2)] and [Date.prototype.toISOString], the two
    built-ins whose output format the service only passes on. *)
Variable JSON_stringify : JsValue -> jsstring.
Variable toISOString : Date -> jsstring.

(** *** Prompt assembly *)

Definition buildSEOContentPrompt (params : SEOContentParams) : jsstring :=
  lines
    [ js "You are an expert SEO content writer specializing in "
        ++ contentType params
        ++ js " content. Create comprehensive, engaging content that ranks well in search engines.";
      [];
      js "CONTENT BRIEF:";
      js "- Title: " ++ title params;
      js "- Content Type: " ++ contentType params;
      js "- Target Length: " ++ contentLength params;
      js "- Tone: " ++ tone params;
      js "- Target Audience: " ++ targetAudience params;
      [];
      js "PRIMARY KEYWORDS TO TARGET:";
      join (js ", ") (keywords params);
      [];
      (if truthy (spyfuData params)
       then lines [ []; js "COMPETITIVE INSIGHTS:";
                    JSON_stringify (spyfuData params); [] ]
       else []);
      [];
      js "CONTENT REQUIREMENTS:";
      js "1. Create a compelling headline and introduction";
      js "2. Naturally integrate target keywords throughout";
      js "3. Use semantic keywords and related terms";
      js "4. Structure with clear headers (H2, H3) for readability";
      js "5. Include actionable insights and value for readers";
      js "6. Optimize for featured snippets where possible";
      js "7. Write meta description (150-160 characters)";
      js "8. Suggest internal linking opportunities";
      [];
      js "OUTPUT FORMAT:";
      js "Provide the content in markdown format with:";
      js "- Clear heading structure";
      js "- Natural keyword integration";
      js "- Engaging and informative content";
      js "- Meta description suggestion at the end";
      [];
      js "Content:" ].

Definition buildSystemPrompt (sessionType : jsstring) (context : JsValue)
  : jsstring :=
  if decide (sessionType = js "content_creation") then
    basePrompt ++ js " You help brainstorm ideas, structure content, and optimize for search engines. Be creative, practical, and focused on results."
  else if decide (sessionType = js "seo_optimization") then
    basePrompt ++ js " You specialize in improving existing content for better search rankings. Analyze content gaps, keyword opportunities, and provide specific optimization recommendations."
  else if decide (sessionType = js "rewrite") then
    basePrompt ++ js " You excel at rewriting content to improve clarity, engagement, and SEO performance while preserving the original message and tone."
  else basePrompt.

(** The body of the [forEach] of [buildChatPrompt]: [prompt += ...]. *)
Definition appendMessage (prompt : jsstring) (msg : Message) : jsstring :=
  if decide (role msg = js "system") then
    prompt ++ js "SYSTEM: " ++ content msg ++ nl ++ nl
  else if decide (role msg = js "user") then
    prompt ++ js "USER: " ++ content msg ++ nl ++ nl
  else if decide (role msg = js "assistant") then
    prompt ++ js "ASSISTANT: " ++ content msg ++ nl ++ nl
  else prompt.

(** What one message contributes to the chat prompt. *)
Definition renderMessage (msg : Message) : jsstring := appendMessage [] msg.

(** The block [buildChatPrompt] adds for truthy [context.spyfuData]. *)
Definition contextBlock (spyfuData : JsValue) : jsstring :=
  nl ++ js "AVAILABLE CONTEXT:" ++ nl
    ++ js "SpyFu Analysis: " ++ JSON_stringify spyfuData ++ nl ++ nl.

Definition buildChatPrompt (conversation : list Message) (context : JsValue)
  : Outcome jsstring :=
  let context := orDefault (JsObject []) context in
  let prompt := fold_left appendMessage conversation [] in
  match getProp context (js "spyfuData") with
  | Thrown e => Thrown e
  | Returned spyfuData =>
      let prompt :=
        if truthy spyfuData then
          prompt ++ nl ++ js "AVAILABLE CONTEXT:" ++ nl
            ++ js "SpyFu Analysis: " ++ JSON_stringify spyfuData ++ nl ++ nl
        else prompt in
      Returned (prompt ++ js "Please provide a helpful, actionable response:")
  end.

(** *** The provider and the table *)

(** [await this.model.generateContent (prompt)] up to [response.text ()]:
    the call is logged, then the provider answers or throws. *)
Definition model_generateContent (env : Env) (self : GeminiContentService)
    (prompt : jsstring) : M jsstring :=
  fun w =>
    (match generateContent env prompt with
     | Replies text => Returned text
     | Fails e => Thrown e
     end,
     {| sessions := sessions w;
        providerCalls := providerCalls w ++ [(model self, prompt)] |}).

(** [db.insert (contentChatSessions).values ({...}).returning ()]; the
    store supplies the key and the time of the row. *)
Definition db_insert (row : ChatSession) : M ChatSession :=
  fun w =>
    (Returned row,
     {| sessions := sessions w ++ [row];
        providerCalls := providerCalls w |}).

(** [db.select ().from (contentChatSessions).where (and (eq (id, sessionId),
    eq (userId, userId))).limit (1)] *)
Definition db_select (wantedId : Z) (wantedUser : jsstring)
  : M (option ChatSession) :=
  fun w =>
    (Returned
       (find (fun row => (id row =? wantedId)%Z
                         && bool_decide (userId row = wantedUser))
          (sessions w)),
     w).

Definition setMessages (updatedMessages : list Message) (now : Date)
    (row : ChatSession) : ChatSession :=
  {| id := id row;
     userId := userId row;
     contentPieceId := contentPieceId row;
     sessionType := sessionType row;
     context := context row;
     messages := MessagesArray updatedMessages;
     updatedAt := now |}.

(** [db.update (contentChatSessions).set ({messages, updatedAt}).where (eq
    (id, sessionId))] *)
Definition db_update (sessionId : Z) (updatedMessages : list Message)
    (now : Date) : M unit :=
  fun w =>
    (Returned tt,
     {| sessions :=
          map (fun row => if (id row =? sessionId)%Z
                          then setMessages updatedMessages now row
                          else row)
            (sessions w);
        providerCalls := providerCalls w |}).

(** *** Methods *)

Definition startContentSession (self : GeminiContentService)
    (newId : Z) (now : Date)
    (userId : jsstring) (contentPieceId : option Z)
    (sessionType : option jsstring) (context : JsValue) : M ChatSession :=
  let sessionType := default (js "content_creation") sessionType in
  let context := orDefault (JsObject []) context in
  db_insert
    {| id := newId;
       userId := userId;
       contentPieceId := contentPieceId;
       sessionType := sessionType;
       context := context;
       messages := MessagesArray [];
       updatedAt := now |}.

Definition getChatSession (self : GeminiContentService)
    (sessionId : Z) (userId : jsstring) : M (option ChatSession) :=
  db_select sessionId userId.

Definition generateSEOContent (env : Env) (self : GeminiContentService)
    (title contentType : jsstring) (keywords : list jsstring)
    (targetAudience : jsstring) (contentLength : option ContentLength)
    (tone : option jsstring) (spyfuData : JsValue) : M jsstring :=
  let contentLength := default medium contentLength in
  let tone := default (js "professional") tone in
  let prompt :=
    buildSEOContentPrompt
      {| title := title;
         contentType := contentType;
         keywords := keywords;
         targetAudience := targetAudience;
         contentLength := lengthGuide contentLength;
         tone := tone;
         spyfuData := spyfuData |} in
  tryCatch
    (model_generateContent env self prompt)
    (fun error => throw (Error (js "Failed to generate content"))).

(** [Array.isArray] on the column. *)
Definition isArray (m : MessagesColumn) : bool :=
  match m with
  | MessagesArray _ => true
  | MessagesOther => false
  end.

(** [Array.isArray (session.messages) ? session.messages : []] *)
Definition conversationHistoryOf (session : ChatSession) : list Message :=
  match messages session with
  | MessagesArray l => l
  | MessagesOther => []
  end.

Definition chatWithGemini (env : Env) (self : GeminiContentService)
    (sessionId : Z) (userMessage userId : jsstring) (context : JsValue)
  : M ChatReply :=
  let context := orDefault (JsObject []) context in
  session <- getChatSession self sessionId userId ;;
  match session with
  | None => throw (Error (js "Chat session not found"))
  | Some session =>
      let conversationHistory := conversationHistoryOf session in
      let systemPrompt := buildSystemPrompt (sessionType session) context in
      let fullConversation :=
        [ mkMessage (js "system") systemPrompt None ]
          ++ conversationHistory
          ++ [ mkMessage (js "user") userMessage None ] in
      tryCatch
        (prompt <- lift (buildChatPrompt fullConversation context) ;;
         assistantMessage <- model_generateContent env self prompt ;;
         let updatedMessages :=
           conversationHistory
             ++ [ mkMessage (js "user") userMessage
                    (Some (toISOString (now1 env)));
                  mkMessage (js "assistant") assistantMessage
                    (Some (toISOString (now2 env))) ] in
         _ <- db_update sessionId updatedMessages (now3 env) ;;
         ret {| message := assistantMessage;
                sessionId := sessionId;
                suggestions := extractSuggestions assistantMessage |})
        (fun error => throw (Error (js "Failed to process chat message")))
  end.

(** The prompt of one exchange, as [chatWithGemini] assembles it. *)
Definition chatPrompt (session : ChatSession) (userMessage : jsstring)
    (context : JsValue) : Outcome jsstring :=
  let context := orDefault (JsObject []) context in
  buildChatPrompt
    ([ mkMessage (js "system")
         (buildSystemPrompt (sessionType session) context) None ]
       ++ conversationHistoryOf session
       ++ [ mkMessage (js "user") userMessage None ])
    context.

(** The two messages a successful exchange adds. *)
Definition newTurns (env : Env) (userMessage assistantMessage : jsstring)
  : list Message :=
  [ mkMessage (js "user") userMessage (Some (toISOString (now1 env)));
    mkMessage (js "assistant") assistantMessage
      (Some (toISOString (now2 env))) ].

(** A caller that sends one message after the other to a session. *)
Record Turn : Type := mkTurn {
  turnEnv : Env;
  turnMessage : jsstring;
  turnContext : JsValue
}.

Fixpoint exchanges (self : GeminiContentService) (sid : Z) (uid : jsstring)
    (turns : list Turn) (w : World) : list (Outcome ChatReply) * World :=
  match turns with
  | [] => ([], w)
  | t :: rest =>
      let (o, w') :=
        chatWithGemini (turnEnv t) self sid (turnMessage t) uid
          (turnContext t) w in
      let (os, w'') := exchanges self sid uid rest w' in
      (o :: os, w'')
  end.

(** What a turn with outcome [o] adds to the log. *)
Definition turnAdds (t : Turn) (o : Outcome ChatReply) : list Message :=
  match o with
  | Returned reply => newTurns (turnEnv t) (turnMessage t) (message reply)
  | Thrown _ => []
  end.

Fixpoint logAdded (turns : list Turn) (os : list (Outcome ChatReply))
  : list Message :=
  match turns, os with
  | t :: turns', o :: os' => turnAdds t o ++ logAdded turns' os'
  | _, _ => []
  end.

End Service.

Definition succeeded {A} (o : Outcome A) : bool :=
  match o with
  | Returned _ => true
  | Thrown _ => false
  end.

(** ** The model test route *)
Module TestModels.

Fixpoint startsWith (s searchString : jsstring) : bool :=
  match searchString, s with
  | [], _ => true
  | p :: searchString', c :: s' => (c =? p)%N && startsWith s' searchString'
  | _ :: _, [] => false
  end.

Record CompletionParams : Type := mkCompletionParams {
  model : jsstring;
  messages : list (jsstring * JsValue);
  max_completion_tokens : option N;
  max_tokens : option N;
  temperature : option Q
}.

(** The part of a completion the handler reads: the [message.content] of
    each choice, and [usage]. *)
Record Completion : Type := mkCompletion {
  choices : list JsValue;
  usage : JsValue
}.

Inductive CreateOutcome : Type :=
| Completes (response : Completion)
| Rejects (e : JsError).

(** [req.params.modelId] and [req.body], an object. *)
Record Request : Type := mkRequest {
  modelId : jsstring;
  body : list (jsstring * JsValue)
}.

Inductive ResponseBody : Type :=
| TestResult (success : bool) (modelId modelName : jsstring)
    (testMessage response usage : JsValue)
| Failure (error details : jsstring).

Record HttpResponse : Type := mkHttpResponse {
  status : nat;
  json : ResponseBody
}.

Section Handler.

(** The handles of the provider clients, [ModelConfigService
    .selectClientAndModel] (the model configuration service is an import of
    the route) and what [client.chat.completions.create] answers. *)
Variable Client : Type.
Variable selectClientAndModel : jsstring -> Outcome (Client * jsstring).
Variable create : Client -> CompletionParams -> CreateOutcome.

(** The state of a request: the outbound calls made so far. *)
Definition Calls : Type := list (Client * CompletionParams).

Definition client_chat_completions_create (client : Client)
    (completionParams : CompletionParams) : St Calls Completion :=
  fun calls =>
    (match create client completionParams with
     | Completes response => Returned response
     | Rejects e => Thrown e
     end,
     calls ++ [(client, completionParams)]).

Definition firstChoice (response : Completion) : Outcome JsValue :=
  match choices response with
  | c :: _ => Returned c
  | [] =>
      Thrown (TypeError
                (js "Cannot read properties of undefined (reading 'message')"))
  end.

(** [router.post ('/test-model/:modelId', ...)] *)
Definition postTestModel (req : Request) : St Calls HttpResponse :=
  tryCatch
    (let modelId := modelId req in
     let message :=
       orDefault (JsString (js "Hello, can you confirm you're working correctly?"))
         (assoc (js "message") (body req)) in
     selected <- lift (selectClientAndModel modelId) ;;
     let '(client, modelName) := selected in
     let isGPT5 := startsWith modelName (js "gpt-5") in
     let messages :=
       [ (js "system",
          JsString (js "You are testing the " ++ modelName
                      ++ js " model. Respond briefly confirming the model is working and mention your capabilities."));
         (js "user", message) ] in
     let completionParams :=
       if isGPT5 then
         {| model := modelName; messages := messages;
            max_completion_tokens := Some 150%N;
            max_tokens := None; temperature := None |}
       else
         {| model := modelName; messages := messages;
            max_completion_tokens := None;
            max_tokens := Some 150%N; temperature := Some (7 # 10)%Q |} in
     response <- client_chat_completions_create client completionParams ;;
     content <- lift (firstChoice response) ;;
     ret {| status := 200;
            json := TestResult true modelId modelName message content
                      (usage response) |})
    (fun error =>
       ret {| status := 500;
              json := Failure (js "Failed to test model " ++ modelId req)
                        (messageOf error) |}).

End Handler.

(** Modelled from the spec: [ModelConfigService.selectClientAndModel] of
    server/services/modelConfigService, which the route imports.  Given a
    logical model identifier it returns the provider client handle and the
    provider-side model name; an unknown identifier fails with an
    "unsupported model" condition rather than silently defaulting. *)
Definition selectClientAndModel {Client : Type}
    (configurations : gmap jsstring (Client * jsstring)) (modelId : jsstring)
  : Outcome (Client * jsstring) :=
  match configurations !! modelId with
  | Some selected => Returned selected
  | None => Thrown (Error (js "Unsupported model: " ++ modelId))
  end.

(** An example request for a model no configuration knows. *)
Definition unknownRequest : Request :=
  {| modelId := js "gpt-9"; body := [] |}.

Definition anyCompletion : jsstring -> CompletionParams -> CreateOutcome :=
  fun _ _ => Completes {| choices := [JsString (js "ok")]; usage := JsNull |}.

End TestModels.

(** What an exchange may do to a row: nothing, or put a new log and a new
    update time on a row with the key of the exchange. *)
Definition sameButLog (sid : Z) (row row' : ChatSession) : Prop :=
  id row' = id row
  /\ userId row' = userId row
  /\ contentPieceId row' = contentPieceId row
  /\ sessionType row' = sessionType row
  /\ context row' = context row
  /\ (id row <> sid -> row' = row).

(** [x] occurs in [y] as a run of consecutive code units. *)
Definition occursIn (x y : jsstring) : Prop :=
  exists before after, y = before ++ x ++ after.

(** Every character class of a pattern lies within the class [P]. *)
Fixpoint classesWithin (P : char16 -> bool) (r : regex) : Prop :=
  match r with
  | Empty | Bol => True
  | Char p | Star p | Plus p => forall c, p c = true -> P c = true
  | Seq r1 r2 | Alt r1 r2 => classesWithin P r1 /\ classesWithin P r2
  end.

(** ** The rewrite and front matter methods *)

(** [Object.keys (v).length]: a TypeError on [undefined] and [null], the own
    keys of an object, the indices of an array or a string, none on the
    other values. *)
Definition Object_keys_length (v : JsValue) : Outcome nat :=
  match v with
  | JsUndefined | JsNull =>
      Thrown (TypeError (js "Cannot convert undefined or null to object"))
  | JsObject fields => Returned (length (remove_dups (map fst fields)))
  | JsArray l => Returned (length l)
  | JsString s => Returned (length s)
  | JsBool _ | JsNumber _ => Returned 0
  end.

(** [s.substring (0, n)] *)
Definition substring0 (n : nat) (s : jsstring) : jsstring := take n s.

Section ServiceMethods.

Variable JSON_stringify : JsValue -> jsstring.

(** The template of [rewriteContentForSEO]. *)
Definition rewritePrompt (originalContent : jsstring)
    (targetKeywords improvements : list jsstring) (spyfuInsights : JsValue)
  : jsstring :=
  lines
    [ js "You are an expert SEO content writer. Please rewrite the following content to improve its SEO performance while maintaining its core message and value.";
      [];
      js "ORIGINAL CONTENT:";
      originalContent;
      [];
      js "TARGET KEYWORDS TO NATURALLY INTEGRATE:";
      join (js ", ") targetKeywords;
      [];
      js "SPECIFIC IMPROVEMENTS REQUESTED:";
      (if 0 <? length improvements
       then join (nl ++ js "- ") improvements
       else js "General SEO optimization");
      [];
      (if truthy spyfuInsights
       then lines [ []; js "COMPETITIVE INSIGHTS (from SpyFu analysis):";
                    JSON_stringify spyfuInsights; [] ]
       else []);
      [];
      js "REQUIREMENTS:";
      js "1. Maintain the original tone and key messages";
      js "2. Naturally integrate target keywords without keyword stuffing";
      js "3. Improve readability and structure";
      js "4. Add semantic keywords and related terms";
      js "5. Optimize for user intent and search engines";
      js "6. Keep the content engaging and valuable";
      [];
      js "Please provide the rewritten content in markdown format:" ].

Definition rewriteContentForSEO (env : Env) (self : GeminiContentService)
    (originalContent : jsstring) (targetKeywords : list jsstring)
    (improvements : option (list jsstring)) (spyfuInsights : JsValue)
  : M jsstring :=
  let improvements := default [] improvements in
  let prompt :=
    rewritePrompt originalContent targetKeywords improvements spyfuInsights in
  tryCatch
    (model_generateContent env self prompt)
    (fun error => throw (Error (js "Failed to rewrite content"))).

(** The template of [generateHugoFrontmatter], given the number of keys of
    [customFields]. *)
Definition frontmatterPrompt (title content contentType : jsstring)
    (keywords : list jsstring) (customFields : JsValue) (keyCount : nat)
  : jsstring :=
  lines
    [ js "Generate appropriate Hugo frontmatter for the following content:";
      [];
      js "TITLE: " ++ title;
      js "CONTENT TYPE: " ++ contentType;
      js "TARGET KEYWORDS: " ++ join (js ", ") keywords;
      [];
      js "CONTENT PREVIEW:";
      substring0 500 content ++ js "...";
      [];
      js "Generate YAML frontmatter that includes:";
      js "1. title, description, slug";
      js "2. date, publishDate (use current date)";
      js "3. SEO-optimized meta description (150-160 characters)";
      js "4. relevant tags and categories";
      js "5. featured image suggestions";
      js "6. schema.org structured data where appropriate";
      [];
      js "Additional fields requested:";
      (if 0 <? keyCount then JSON_stringify customFields else js "None");
      [];
      js "Return only the YAML frontmatter (without the --- delimiters):" ].

Definition generateHugoFrontmatter (env : Env) (self : GeminiContentService)
    (title content contentType : jsstring) (keywords : option (list jsstring))
    (customFields : JsValue) : M jsstring :=
  let keywords := default [] keywords in
  let customFields := orDefault (JsObject []) customFields in
  keyCount <- lift (Object_keys_length customFields) ;;
  let prompt :=
    frontmatterPrompt title content contentType keywords customFields
      keyCount in
  tryCatch
    (model_generateContent env self prompt)
    (fun error => throw (Error (js "Failed to generate frontmatter"))).

End ServiceMethods.

(** [a || b] *)
Definition orElse (a b : JsValue) : JsValue := if truthy a then a else b.

(** ** The parameters of a model test *)

(** The message of a test request: [body.message], or the default. *)
Definition testMessageOf (req : TestModels.Request) : JsValue :=
  orDefault (JsString (js "Hello, can you confirm you're working correctly?"))
    (assoc (js "message") (TestModels.body req)).

(** The [completionParams] the test route builds for a model name. *)
Definition completionParamsOf (modelName : jsstring) (message : JsValue)
  : TestModels.CompletionParams :=
  let messages :=
    [ (js "system",
       JsString (js "You are testing the " ++ modelName
                   ++ js " model. Respond briefly confirming the model is working and mention your capabilities."));
      (js "user", message) ] in
  if TestModels.startsWith modelName (js "gpt-5") then
    {| TestModels.model := modelName;
       TestModels.messages := messages;
       TestModels.max_completion_tokens := Some 150%N;
       TestModels.max_tokens := None;
       TestModels.temperature := None |}
  else
    {| TestModels.model := modelName;
       TestModels.messages := messages;
       TestModels.max_completion_tokens := None;
       TestModels.max_tokens := Some 150%N;
       TestModels.temperature := Some (7 # 10)%Q |}.

(** ** The model list route *)
Module TestModelsList.

(** An entry of the model configurations, as far as the route reads it. *)
Record ModelConfig : Type := mkModelConfig {
  modelName : JsValue;
  description : JsValue;
  pricing : JsValue;
  capabilities : JsValue;
  contextWindow : JsValue;
  isRecommended : JsValue
}.

Record ModelSummary : Type := mkModelSummary {
  summaryId : jsstring;
  summaryName : JsValue;
  summaryDescription : JsValue;
  summaryPricing : JsValue;
  summaryCapabilities : JsValue;
  summaryContextWindow : JsValue;
  summaryIsRecommended : JsValue
}.

Inductive ModelsBody : Type :=
| ModelList (success : bool) (models : list ModelSummary) (totalModels : nat)
    (recommendedModels : list ModelSummary)
| ModelsFailure (error : jsstring).

Record ModelsResponse : Type := mkModelsResponse {
  modelsStatus : nat;
  modelsJson : ModelsBody
}.

(** The callback of [Object.keys (models).map]. *)
Definition summarize (entry : jsstring * ModelConfig) : ModelSummary :=
  let (key, config) := entry in
  {| summaryId := key;
     summaryName := modelName config;
     summaryDescription := description config;
     summaryPricing := pricing config;
     summaryCapabilities := capabilities config;
     summaryContextWindow := contextWindow config;
     summaryIsRecommended := orElse (isRecommended config) (JsBool false) |}.

(** [router.get ('/test-models', ...)], given what [ModelConfigService
    .getModelConfigurations ()] does: it throws, or returns the object of the
    configurations, here its keys in the order of [Object.keys], each with
    its entry. *)
Definition getTestModels
    (getModelConfigurations : Outcome (list (jsstring * ModelConfig)))
  : ModelsResponse :=
  match getModelConfigurations with
  | Returned models =>
      let modelList := map summarize models in
      {| modelsStatus := 200;
         modelsJson :=
           ModelList true modelList (length modelList)
             (List.filter (fun m => truthy (summaryIsRecommended m))
                modelList) |}
  | Thrown error =>
      {| modelsStatus := 500;
         modelsJson := ModelsFailure (js "Failed to fetch model configurations") |}
  end.

End TestModelsList.

(** ** The chat test module of the client *)
Module ChatTestModule.

Record Message : Type := mkMessage {
  role : jsstring;
  content : JsValue;
  timestamp : Date
}.

(** The three state variables of the component. *)
Record State : Type := mkState {
  messages : list Message;
  currentMessage : jsstring;
  isLoading : bool
}.

(** The body of [POST /api/chat/test]. *)
Record ChatRequest : Type := mkChatRequest {
  requestMessage : jsstring;
  requestAgentId : option Z;
  requestMessages : list Message
}.

Record Toast : Type := mkToast {
  toastTitle : jsstring;
  toastDescription : jsstring;
  toastVariant : jsstring
}.

(** What [apiRequest] and [response.json ()] come to: the data of the
    response, or a rejection of either. *)
Inductive ApiOutcome : Type :=
| Responds (responseData : JsValue)
| Rejects.

(** [v?.name] *)
Definition getPropOptional (v : JsValue) (name : jsstring) : JsValue :=
  match v with
  | JsObject fields => assoc name fields
  | _ => JsUndefined
  end.

(** [sendMessage] up to its [await]: nothing when the input is blank or a
    request is under way; else the state with the user message added, the
    input cleared and the loading flag set, and the request that goes out. *)
Definition sendMessage_begin (now : Date) (agentId : option Z) (st : State)
  : option (State * ChatRequest) :=
  if Nat.eqb (length (trim (currentMessage st))) 0 || isLoading st then None
  else
    let userMessage :=
      {| role := js "user";
         content := JsString (currentMessage st);
         timestamp := now |} in
    Some ({| messages := messages st ++ [userMessage];
             currentMessage := [];
             isLoading := true |},
          {| requestMessage := currentMessage st;
             requestAgentId := agentId;
             requestMessages := messages st |}).

(** [sendMessage] from its [await] on, on the state of that moment: the
    assistant message is added, or the error toast shown; the loading flag
    is cleared either way. *)
Definition sendMessage_settle (now : Date) (outcome : ApiOutcome) (st : State)
  : State * list Toast :=
  match outcome with
  | Responds responseData =>
      let assistantMessage :=
        {| role := js "assistant";
           content :=
             orElse
               (getPropOptional responseData (js "message"))
               (JsString (js "I'm here to help!"));
           timestamp := now |} in
      ({| messages := messages st ++ [assistantMessage];
          currentMessage := currentMessage st;
          isLoading := false |},
       [])
  | Rejects =>
      ({| messages := messages st;
          currentMessage := currentMessage st;
          isLoading := false |},
       [ {| toastTitle := js "Error";
            toastDescription := js "Failed to send message. Please try again.";
            toastVariant := js "destructive" |} ])
  end.

(** A whole [sendMessage] with nothing else happening meanwhile. *)
Definition sendMessage (now1 now2 : Date) (agentId : option Z)
    (outcome : ApiOutcome) (st : State)
  : State * list ChatRequest * list Toast :=
  match sendMessage_begin now1 agentId st with
  | None => (st, [], [])
  | Some (st1, request) =>
      let (st2, toasts) := sendMessage_settle now2 outcome st1 in
      (st2, [request], toasts)
  end.

(** [handleKeyPress]: Enter without Shift sends. *)
Definition handleKeyPress (key : jsstring) (shiftKey : bool)
    (now1 now2 : Date) (agentId : option Z) (outcome : ApiOutcome) (st : State)
  : State * list ChatRequest * list Toast :=
  if bool_decide (key = js "Enter") && negb shiftKey
  then sendMessage now1 now2 agentId outcome st
  else (st, [], []).

End ChatTestModule.

(** ** The content studio of the client *)
Module ContentStudio.

(** A JavaScript object with string values: its own properties in the
    order of their creation. *)
Definition Obj : Type := list (jsstring * jsstring).

Definition isDigit (c : char16) : bool := ((48 <=? c) && (c <=? 57))%N.

Definition decimalValue (s : jsstring) : N :=
  fold_left (fun acc c => acc * 10 + (c - 48))%N s 0%N.

(** The array index a property key stands for, if any: the canonical
    decimal form of an integer below [2^32 - 1]. *)
Definition arrayIndex (key : jsstring) : option N :=
  match key with
  | [] => None
  | c :: rest =>
      if forallb isDigit key
         && (negb (c =? 48)%N || Nat.eqb (length rest) 0)
         && (decimalValue key <=? 4294967294)%N
      then Some (decimalValue key)
      else None
  end.

Definition isIndexKey (entry : jsstring * jsstring) : bool :=
  match arrayIndex (fst entry) with
  | Some _ => true
  | None => false
  end.

Fixpoint insertSorted (i : N) (entry : jsstring * jsstring)
    (l : list (N * (jsstring * jsstring))) : list (N * (jsstring * jsstring)) :=
  match l with
  | [] => [(i, entry)]
  | (j, entry') :: l' =>
      if (i <=? j)%N then (i, entry) :: l
      else (j, entry') :: insertSorted i entry l'
  end.

Definition indexEntries (obj : Obj) : list (N * (jsstring * jsstring)) :=
  fold_right
    (fun entry acc =>
       match arrayIndex (fst entry) with
       | Some i => insertSorted i entry acc
       | None => acc
       end)
    [] obj.

(** [Object.entries]: the array indices in ascending order, then the other
    keys in the order of their creation. *)
Definition Object_entries (obj : Obj) : list (jsstring * jsstring) :=
  map snd (indexEntries obj)
    ++ List.filter (fun entry => negb (isIndexKey entry)) obj.

(** Defining the property [key]: in place when the object has it, at the
    end otherwise. *)
Fixpoint setProp (key value : jsstring) (obj : Obj) : Obj :=
  match obj with
  | [] => [(key, value)]
  | (k, v) :: rest =>
      if decide (k = key) then (k, value) :: rest
      else (k, v) :: setProp key value rest
  end.

(** [s.includes (searchString)] *)
Fixpoint includes (s searchString : jsstring) : bool :=
  TestModels.startsWith s searchString
  || match s with
     | [] => false
     | _ :: s' => includes s' searchString
     end.

(** [s.split (sep)] for a separator of one code unit. *)
Fixpoint split (sep : char16) (s : jsstring) : list jsstring :=
  match s with
  | [] => [[]]
  | c :: s' =>
      if (c =? sep)%N then [] :: split sep s'
      else
        match split sep s' with
        | [] => [[c]]
        | word :: words => (c :: word) :: words
        end
  end.

(** The decimal form of a length, as a template string prints it. *)
Definition decimal (n : nat) : jsstring :=
  js (NilEmpty.string_of_uint (Nat.to_uint n)).

Record File : Type := mkFile {
  fileName : jsstring;
  filePath : jsstring
}.

Record Connection : Type := mkConnection {
  connectionId : Z
}.

Record Patch : Type := mkPatch {
  patchPath : jsstring;
  patchValue : jsstring;
  patchOperation : jsstring
}.

(** What the handlers read of a [ContentPreview]. *)
Record Preview : Type := mkPreview {
  previewSuccess : bool;
  appliedPatches : list Patch;
  previewErrors : list jsstring
}.

Record ChatMessage : Type := mkChatMessage {
  chatRole : jsstring;
  chatContent : jsstring;
  chatTimestamp : jsstring
}.

(** The state variables the handlers read and write. *)
Record State : Type := mkState {
  selectedConnection : option Connection;
  selectedFile : option File;
  currentPreview : option Preview;
  chatMessage : jsstring;
  targetKeywords : jsstring;
  competitorDomain : jsstring;
  chatMessages : list ChatMessage;
  fieldEdits : Obj
}.

(** The body of the preview request, with the repository it goes to. *)
Record PreviewRequest : Type := mkPreviewRequest {
  previewRepo : Z;
  previewFilePath : jsstring;
  previewPatches : option (list Patch);
  previewPrompt : jsstring;
  previewGenerateContent : bool;
  previewUseSpyFu : bool;
  previewTargetKeywords : option (list jsstring);
  previewCompetitorDomain : option jsstring
}.

Record ApplyRequest : Type := mkApplyRequest {
  applyRepo : Z;
  applyFilePath : jsstring;
  applyPatches : list Patch;
  applyCommitMessage : jsstring
}.

Definition nonEmpty (s : jsstring) : bool := negb (Nat.eqb (length s) 0).

(** [handleFieldEdit]: [setFieldEdits (prev => ({...prev, [path]: value}))] *)
Definition handleFieldEdit (path value : jsstring) (st : State) : State :=
  {| selectedConnection := selectedConnection st;
     selectedFile := selectedFile st;
     currentPreview := currentPreview st;
     chatMessage := chatMessage st;
     targetKeywords := targetKeywords st;
     competitorDomain := competitorDomain st;
     chatMessages := chatMessages st;
     fieldEdits := setProp path value (Object_entries (fieldEdits st)) |}.

(** The callback of [Object.entries (fieldEdits).map]. *)
Definition patchOf (entry : jsstring * jsstring) : Patch :=
  {| patchPath := fst entry;
     patchValue := snd entry;
     patchOperation := js "replace" |}.

(** [handleSendMessage]: the preview request it hands to the mutation, or
    nothing. *)
Definition handleSendMessage (st : State) : option PreviewRequest :=
  match selectedFile st, selectedConnection st with
  | Some file, Some connection =>
      if Nat.eqb (length (trim (chatMessage st))) 0 then None
      else
        let patches := map patchOf (Object_entries (fieldEdits st)) in
        Some
          {| previewRepo := connectionId connection;
             previewFilePath := filePath file;
             previewPatches :=
               if 0 <? length patches then Some patches else None;
             previewPrompt := chatMessage st;
             previewGenerateContent :=
               includes (chatMessage st) (js "improve")
               || includes (chatMessage st) (js "optimize");
             previewUseSpyFu := nonEmpty (competitorDomain st);
             previewTargetKeywords :=
               if nonEmpty (targetKeywords st)
               then Some (map trim (split 44%N (targetKeywords st)))
               else None;
             previewCompetitorDomain :=
               if nonEmpty (competitorDomain st)
               then Some (competitorDomain st) else None |}
  | _, _ => None
  end.

(** [previewMutation]'s [onSuccess], on the state of that moment and with
    the two readings of the clock as strings. *)
Definition previewSucceeded (data : Preview) (now1 now2 : jsstring) (st : State)
  : State :=
  {| selectedConnection := selectedConnection st;
     selectedFile := selectedFile st;
     currentPreview := Some data;
     chatMessage := [];
     targetKeywords := targetKeywords st;
     competitorDomain := competitorDomain st;
     chatMessages :=
       chatMessages st
         ++ [ {| chatRole := js "user";
                 chatContent := chatMessage st;
                 chatTimestamp := now1 |};
              {| chatRole := js "assistant";
                 chatContent :=
                   if previewSuccess data then
                     js "I've generated content improvements with "
                       ++ decimal (length (appliedPatches data))
                       ++ js " changes. Review the diff below and click Apply to save to your repository."
                   else
                     js "I encountered some issues: "
                       ++ join (js ", ") (previewErrors data);
                 chatTimestamp := now2 |} ];
     fieldEdits := fieldEdits st |}.

(** [handleApplyChanges]: the apply request, or nothing. *)
Definition handleApplyChanges (st : State) : option ApplyRequest :=
  match currentPreview st, selectedFile st, selectedConnection st with
  | Some preview, Some file, Some connection =>
      Some {| applyRepo := connectionId connection;
              applyFilePath := filePath file;
              applyPatches := appliedPatches preview;
              applyCommitMessage :=
                js "Update " ++ fileName file ++ js " via AI Agent Builder" |}
  | _, _, _ => None
  end.

(** [applyMutation]'s [onSuccess], as far as the state goes: the preview
    and the edits are dropped. *)
Definition applySucceeded (st : State) : State :=
  {| selectedConnection := selectedConnection st;
     selectedFile := selectedFile st;
     currentPreview := None;
     chatMessage := chatMessage st;
     targetKeywords := targetKeywords st;
     competitorDomain := competitorDomain st;
     chatMessages := chatMessages st;
     fieldEdits := [] |}.

End ContentStudio.

(** ** Example data *)

(** Stand-ins for the two built-ins where an example needs them; the
    examples carry no context data. *)
Definition plainStringify (v : JsValue) : jsstring := js "{}".
Definition plainISO (d : Date) : jsstring := js "2025-08-28T09:00:00.000Z".

Definition service0 : GeminiContentService :=
  {| genAI := js "key"; model := js "gemini-2.5-flash" |}.

Definition session1 : ChatSession :=
  {| id := 1; userId := js "alice"; contentPieceId := None;
     sessionType := js "content_creation"; context := JsObject [];
     messages := MessagesArray []; updatedAt := 0%N |}.

Definition world1 : World :=
  {| sessions := [session1]; providerCalls := [] |}.

Definition envDown : Env :=
  {| generateContent := fun _ => Fails (Error (js "503 Service Unavailable"));
     now1 := 1%N; now2 := 2%N; now3 := 3%N |}.

Definition envUp : Env :=
  {| generateContent := fun _ => Replies (js "Consider adding a table of contents.");
     now1 := 1%N; now2 := 2%N; now3 := 3%N |}.

Definition turns2 : list Turn :=
  [ mkTurn envUp (js "Write an intro about SEO") JsUndefined;
    mkTurn envUp (js "Make it shorter") JsUndefined ].

Definition turnsMixed : list Turn :=
  [ mkTurn envUp (js "Write an intro about SEO") JsUndefined;
    mkTurn envDown (js "Add a call to action") JsUndefined;
    mkTurn envUp (js "Make it shorter") JsUndefined ].

Definition uiState1 : ChatTestModule.State :=
  {| ChatTestModule.messages := [];
     ChatTestModule.currentMessage := js "Hello there";
     ChatTestModule.isLoading := false |}.

Definition studio1 : ContentStudio.State :=
  {| ContentStudio.selectedConnection :=
       Some {| ContentStudio.connectionId := 7 |};
     ContentStudio.selectedFile :=
       Some {| ContentStudio.fileName := js "about.md";
               ContentStudio.filePath := js "content/about.md" |};
     ContentStudio.currentPreview := None;
     ContentStudio.chatMessage := js "Please improve the intro";
     ContentStudio.targetKeywords := js " seo, content marketing ,";
     ContentStudio.competitorDomain := [];
     ContentStudio.chatMessages := [];
     ContentStudio.fieldEdits := [(js "title", js "About us")] |}.

Definition preview1 : ContentStudio.Preview :=
  {| ContentStudio.previewSuccess := true;
     ContentStudio.appliedPatches :=
       [ {| ContentStudio.patchPath := js "title";
            ContentStudio.patchValue := js "About our team";
            ContentStudio.patchOperation := js "replace" |} ];
     ContentStudio.previewErrors := [] |}.

(** * Properties *)

(** ** Session lookup *)

Lemma matchesSession_true sid uid row :
  matchesSession sid uid row = true <-> id row = sid /\ userId row = uid.
Proof.
  unfold matchesSession.
  rewrite andb_true_iff, Z.eqb_eq, bool_decide_eq_true. tauto.
Qed.

Lemma find_none_iff {A} (f : A -> bool) (l : list A) :
  find f l = None <-> (forall x, In x l -> f x = false).
Proof.
  split.
  - apply find_none.
  - induction l as [|a l IH]; intros H; [reflexivity|].
    cbn. rewrite (H a (or_introl eq_refl)). apply IH.
    intros x Hx. apply H. now right.
Qed.

Lemma db_select_find sid uid w :
  db_select sid uid w =
    (Returned (find (matchesSession sid uid) (sessions w)), w).
Proof. reflexivity. Qed.

Lemma find_matches_none sid uid (rows : list ChatSession) :
  (forall row, In row rows -> ~ (id row = sid /\ userId row = uid)) ->
  find (matchesSession sid uid) rows = None.
Proof.
  intros H. apply find_none_iff. intros row Hrow.
  apply not_true_is_false. rewrite (matchesSession_true sid uid row).
  now apply H.
Qed.

(** An update that keeps the key and the owner of every row commutes with
    the lookup. *)
Lemma find_map_keeps {A} (f : A -> bool) (g : A -> A) (l : list A) :
  (forall x, f (g x) = f x) ->
  find f (map g l) = option_map g (find f l).
Proof.
  intros Hfg. induction l as [|a l IH]; [reflexivity|].
  cbn. rewrite Hfg. destruct (f a); [reflexivity | exact IH].
Qed.

Lemma find_app_none {A} (f : A -> bool) (l : list A) x :
  find f l = None -> find f (l ++ [x]) = if f x then Some x else None.
Proof.
  induction l as [|a l IH]; cbn; [reflexivity|].
  destruct (f a); [discriminate | exact IH].
Qed.

(** A session as [startContentSession] creates it, under a key no row has
    yet: the owner finds it, and its log is the empty array. *)
Lemma startContentSession_empty_log self newId now uid piece type context w :
  (forall row, In row (sessions w) -> id row <> newId) ->
  exists session w',
    startContentSession self newId now uid piece type context w
      = (Returned session, w')
    /\ find (matchesSession newId uid) (sessions w') = Some session
    /\ messages session = MessagesArray []
    /\ providerCalls w' = providerCalls w.
Proof.
  intros Hfresh. unfold startContentSession, db_insert.
  eexists. eexists. split; [reflexivity|]. cbn [sessions providerCalls].
  split; [|now split].
  rewrite find_app_none.
  - unfold matchesSession. cbn [id userId].
    now rewrite Z.eqb_refl, bool_decide_eq_true_2.
  - apply find_matches_none. intros row Hin [Hid _]. exact (Hfresh row Hin Hid).
Qed.

Section ServiceProperties.

Variable JSON_stringify : JsValue -> jsstring.
Variable toISOString : Date -> jsstring.

Abbreviation chat := (chatWithGemini JSON_stringify toISOString).
Abbreviation promptOf := (chatPrompt JSON_stringify).
Abbreviation turnsOf := (newTurns toISOString).

Lemma chat_not_found env self sid userMessage uid context w :
  find (matchesSession sid uid) (sessions w) = None ->
  chat env self sid userMessage uid context w = (Thrown notFound, w).
Proof.
  intros H. unfold chatWithGemini, bind, getChatSession.
  rewrite db_select_find, H. reflexivity.
Qed.

(** The three ways an exchange on an existing session ends. *)
Lemma chat_found env self sid userMessage uid context w session :
  find (matchesSession sid uid) (sessions w) = Some session ->
  chat env self sid userMessage uid context w =
    match promptOf session userMessage context with
    | Thrown _ => (Thrown failedToProcess, w)
    | Returned prompt =>
        let calls := providerCalls w ++ [(model self, prompt)] in
        match generateContent env prompt with
        | Fails _ =>
            (Thrown failedToProcess,
             {| sessions := sessions w; providerCalls := calls |})
        | Replies text =>
            (Returned {| message := text; sessionId := sid;
                         suggestions := extractSuggestions text |},
             {| sessions :=
                  map (fun row =>
                         if (id row =? sid)%Z
                         then setMessages
                                (conversationHistoryOf session
                                   ++ turnsOf env userMessage text)
                                (now3 env) row
                         else row)
                    (sessions w);
                providerCalls := calls |})
        end
    end.
Proof.
  intros H.
  unfold chatWithGemini, bind, getChatSession.
  rewrite db_select_find, H.
  unfold chatPrompt, tryCatch, bind, lift.
  destruct (buildChatPrompt _ _ _) as [prompt|e]; [|reflexivity].
  unfold model_generateContent.
  destruct (generateContent env prompt) as [text|e]; reflexivity.
Qed.

(** Whatever makes an exchange fail, the table is as it was. *)
Lemma chat_thrown_sessions env self sid userMessage uid context w e w' :
  chat env self sid userMessage uid context w = (Thrown e, w') ->
  sessions w' = sessions w.
Proof.
  destruct (find (matchesSession sid uid) (sessions w)) as [session|] eqn:Hf.
  - rewrite (chat_found _ _ _ _ _ _ _ _ Hf).
    destruct (promptOf _ _ _) as [prompt|e0]; cbn zeta.
    + destruct (generateContent env prompt); intros [= <- <-]; reflexivity.
    + now intros [= <- <-].
  - rewrite (chat_not_found _ _ _ _ _ _ _ Hf). now intros [= <- <-].
Qed.

(** C1. When the session exists, its prompt is assembled and the provider
    call on that prompt throws, [chatWithGemini] throws the generic
    "Failed to process chat message" error, the call is the only effect,
    and the table (so every message log) is unchanged: nothing is appended. *)
Theorem chatWithGemini_provider_failure
    env self sid userMessage uid context w session prompt e :
  find (matchesSession sid uid) (sessions w) = Some session ->
  promptOf session userMessage context = Returned prompt ->
  generateContent env prompt = Fails e ->
  exists w',
    chat env self sid userMessage uid context w
      = (Thrown (Error (js "Failed to process chat message")), w')
    /\ sessions w' = sessions w
    /\ providerCalls w' = providerCalls w ++ [(model self, prompt)].
Proof.
  intros Hf Hp He. rewrite (chat_found _ _ _ _ _ _ _ _ Hf), Hp. cbn zeta.
  rewrite He. eexists. split; [reflexivity|]. split; reflexivity.
Qed.

(** C5. When no session matches the identifier supplied (with the caller
    as owner), [chatWithGemini] throws "Chat session not found", an error
    other than the generic one, and the whole state is as before: no
    provider call is logged and no row has changed. *)
Theorem chatWithGemini_session_not_found
    env self sid userMessage uid context w :
  (forall row, In row (sessions w) -> ~ (id row = sid /\ userId row = uid)) ->
  chat env self sid userMessage uid context w
    = (Thrown (Error (js "Chat session not found")), w)
  /\ Error (js "Chat session not found")
       <> Error (js "Failed to process chat message").
Proof.
  intros H. split.
  - apply chat_not_found. now apply find_matches_none.
  - intros [=].
Qed.

(** C9. [getChatSession] returns a row only if its id and its owner are
    the ones asked for, and returns one whenever such a row exists; a user
    who asks for a session that only other users own gets "Chat session
    not found", exactly as for an id no row has, and the state (with that
    session's log) is unchanged. *)
Theorem getChatSession_owner_scoped self sid uid w :
  (forall session,
     getChatSession self sid uid w = (Returned (Some session), w) ->
     In session (sessions w) /\ id session = sid /\ userId session = uid)
  /\ ((exists row, In row (sessions w) /\ id row = sid /\ userId row = uid) ->
      exists session, getChatSession self sid uid w = (Returned (Some session), w))
  /\ (forall env userMessage context,
        (forall row, In row (sessions w) -> id row = sid -> userId row <> uid) ->
        chat env self sid userMessage uid context w
          = (Thrown (Error (js "Chat session not found")), w)
        /\ forall other,
             (forall row, In row (sessions w) -> id row <> other) ->
             chat env self other userMessage uid context w
               = (Thrown (Error (js "Chat session not found")), w)).
Proof.
  unfold getChatSession. rewrite db_select_find. split; [|split].
  - intros session [= Hf]. apply find_some in Hf. destruct Hf as [Hin Hm].
    apply matchesSession_true in Hm. tauto.
  - intros (row & Hin & Hid & Hu).
    destruct (find (matchesSession sid uid) (sessions w)) as [s|] eqn:Hf.
    + now exists s.
    + exfalso. apply find_none with (x := row) in Hf; [|exact Hin].
      assert (matchesSession sid uid row = true)
        by now apply matchesSession_true.
      congruence.
  - intros env userMessage context Hother. split.
    + apply chat_not_found, find_matches_none.
      intros row Hin [Hid Hu]. exact (Hother row Hin Hid Hu).
    + intros other Hnone. apply chat_not_found, find_matches_none.
      intros row Hin [Hid _]. exact (Hnone row Hin Hid).
Qed.

Abbreviation run := (exchanges JSON_stringify toISOString).
Abbreviation added := (logAdded toISOString).

Lemma setMessages_matches sid uid sid' l now row :
  matchesSession sid uid
    (if (id row =? sid')%Z then setMessages l now row else row)
  = matchesSession sid uid row.
Proof. now destruct (id row =? sid')%Z. Qed.

(** A successful exchange, seen from the lookup of the same session. *)
Lemma chat_returned env self sid userMessage uid context w session reply w' :
  find (matchesSession sid uid) (sessions w) = Some session ->
  chat env self sid userMessage uid context w = (Returned reply, w') ->
  find (matchesSession sid uid) (sessions w')
    = Some (setMessages
              (conversationHistoryOf session
                 ++ turnsOf env userMessage (message reply))
              (now3 env) session)
  /\ sessions w' =
       map (fun row =>
              if (id row =? sid)%Z
              then setMessages
                     (conversationHistoryOf session
                        ++ turnsOf env userMessage (message reply))
                     (now3 env) row
              else row)
         (sessions w).
Proof.
  intros Hf. rewrite (chat_found _ _ _ _ _ _ _ _ Hf).
  destruct (promptOf _ _ _) as [prompt|e0]; [|discriminate]. cbn zeta.
  destruct (generateContent env prompt) as [text|e0]; [|discriminate].
  intros [= <- <-]. cbn [sessions message]. split; [|reflexivity].
  rewrite find_map_keeps by (intros row; apply setMessages_matches).
  rewrite Hf. cbn [option_map].
  apply find_some in Hf. destruct Hf as [_ Hm].
  apply matchesSession_true in Hm. destruct Hm as [Hid _].
  apply Z.eqb_eq in Hid. now rewrite Hid.
Qed.

(** The log of a session along a run of exchanges: what was there, then
    what each successful turn added, in the order of the turns. *)
Lemma exchanges_log self sid uid turns : forall w session os w',
  find (matchesSession sid uid) (sessions w) = Some session ->
  run self sid uid turns w = (os, w') ->
  length os = length turns
  /\ exists session',
       find (matchesSession sid uid) (sessions w') = Some session'
       /\ conversationHistoryOf session'
            = conversationHistoryOf session ++ added turns os
       /\ (isArray (messages session) = true \/ added turns os <> [] ->
           isArray (messages session') = true).
Proof.
  induction turns as [|t turns IH]; intros w session os w' Hf Hrun.
  - injection Hrun as <- <-. split; [reflexivity|]. exists session.
    cbn. rewrite app_nil_r. split; [exact Hf|]. split; [reflexivity|].
    now intros [H|H].
  - cbn [exchanges] in Hrun.
    destruct (chat (turnEnv t) self sid (turnMessage t) uid (turnContext t) w)
      as [o w1] eqn:Hc.
    destruct (run self sid uid turns w1) as [os1 w2] eqn:Hr.
    injection Hrun as <- <-.
    destruct o as [reply|e].
    + destruct (chat_returned _ _ _ _ _ _ _ _ _ _ Hf Hc) as [Hf1 _].
      destruct (IH _ _ _ _ Hf1 Hr) as (Hlen & session' & Hf' & Hh & Hm).
      split; [cbn; now rewrite Hlen|]. exists session'.
      split; [exact Hf'|]. cbn [logAdded turnAdds].
      cbn [conversationHistoryOf setMessages messages] in Hh.
      rewrite Hh, <- !app_assoc. split; [reflexivity|]. intros _.
      apply Hm. now left.
    + pose proof (chat_thrown_sessions _ _ _ _ _ _ _ _ _ Hc) as Hs.
      rewrite <- Hs in Hf.
      destruct (IH _ _ _ _ Hf Hr) as (Hlen & session' & Hf' & Hh & Hm).
      split; [cbn; now rewrite Hlen|]. exists session'.
      split; [exact Hf'|]. cbn [logAdded turnAdds app].
      split; [exact Hh | exact Hm].
Qed.

Lemma isArray_messages session :
  isArray (messages session) = true ->
  messages session = MessagesArray (conversationHistoryOf session).
Proof.
  unfold conversationHistoryOf. now destruct (messages session).
Qed.

Lemma added_all_succeeded turns : forall os,
  length os = length turns ->
  forallb succeeded os = true ->
  length (added turns os) = 2 * length turns.
Proof.
  induction turns as [|t turns IH]; intros [|o os] Hlen Hok;
    try discriminate; [reflexivity|].
  cbn in Hok. apply andb_true_iff in Hok. destruct Hok as [Ho Hos].
  destruct o as [reply|e]; [|discriminate].
  cbn [logAdded turnAdds newTurns app length].
  rewrite (IH os); [cbn; lia | now injection Hlen | exact Hos].
Qed.


End ServiceProperties.

(** ** The constructor *)

(** C8. Without [GEMINI_API_KEY] in the environment the constructor throws
    (so does an empty value), and every instance it returns was built from
    an environment that holds a non-empty key: no method has an instance
    to run on otherwise. *)
Theorem constructor_requires_api_key (env : gmap string jsstring) :
  (env !! "GEMINI_API_KEY"%string = None ->
   constructor env
     = Thrown (Error (js "GEMINI_API_KEY environment variable is required")))
  /\ (env !! "GEMINI_API_KEY"%string = Some [] ->
      constructor env
        = Thrown (Error (js "GEMINI_API_KEY environment variable is required")))
  /\ (forall self, constructor env = Returned self ->
      exists key, env !! "GEMINI_API_KEY"%string = Some key
                  /\ key <> [] /\ genAI self = key).
Proof.
  unfold constructor, jsstring in *. split; [|split].
  - now intros ->.
  - now intros ->.
  - intros self. destruct (env !! _) as [key|]; [|discriminate].
    destruct key as [|c key]; cbn; [discriminate|].
    intros [= <-]. now exists (c :: key).
Qed.

(** ** Prompt assembly *)

Lemma Returned_inj {A} (a b : A) : Returned a = Returned b -> a = b.
Proof. now intros [=]. Qed.

Lemma lines_app (l1 l2 : list jsstring) :
  l1 <> [] -> l2 <> [] -> lines (l1 ++ l2) = lines l1 ++ nl ++ lines l2.
Proof.
  unfold lines. intros H1 H2. induction l1 as [|x l1 IH]; [contradiction|].
  destruct l1 as [|y l1].
  - destruct l2; [contradiction|]. reflexivity.
  - change (join nl ((x :: y :: l1) ++ l2))
      with (x ++ nl ++ join nl ((y :: l1) ++ l2)).
    rewrite IH by discriminate.
    change (join nl (x :: y :: l1)) with (x ++ nl ++ join nl (y :: l1)).
    now rewrite <- !app_assoc.
Qed.

Lemma fold_appendMessage conversation : forall prompt,
  fold_left appendMessage conversation prompt
    = prompt ++ concat (map renderMessage conversation).
Proof.
  induction conversation as [|msg conversation IH]; intros prompt; cbn.
  - now rewrite app_nil_r.
  - rewrite IH. rewrite app_assoc. f_equal.
    unfold renderMessage, appendMessage.
    repeat case_decide; cbn; now rewrite ?app_nil_r.
Qed.

Section PromptProperties.

Opaque js.

Variable JSON_stringify : JsValue -> jsstring.

Abbreviation seoPrompt := (buildSEOContentPrompt JSON_stringify).
Abbreviation chatPromptOf := (buildChatPrompt JSON_stringify).

(** The one effect of [generateSEOContent]: the prompt goes to the provider. *)
Lemma generateSEOContent_calls env self title contentType keywords
    targetAudience contentLength tone spyfuData w :
  providerCalls
    (snd (generateSEOContent JSON_stringify env self title contentType
            keywords targetAudience contentLength tone spyfuData w))
  = providerCalls w
      ++ [(model self,
           seoPrompt
             {| title := title; contentType := contentType;
                keywords := keywords; targetAudience := targetAudience;
                contentLength := lengthGuide (default medium contentLength);
                tone := default (js "professional") tone;
                spyfuData := spyfuData |})].
Proof.
  unfold generateSEOContent, tryCatch, model_generateContent, throw.
  now destruct (generateContent env _).
Qed.

(** C6. The length guide has the three entries short, medium and long with
    their word ranges, a call without a bucket takes medium, and the
    prompt [generateSEOContent] sends is, for text before and after that
    the other parameters fix, that text around the "Target Length" line
    with the range of the bucket. *)
Theorem generateSEOContent_length_bucket :
  (lengthGuide short = js "300-500 words"
   /\ lengthGuide medium = js "800-1200 words"
   /\ lengthGuide long = js "1500-2500 words")
  /\ (forall env self title contentType keywords targetAudience tone spyfuData w,
        generateSEOContent JSON_stringify env self title
          contentType keywords targetAudience None tone spyfuData w
        = generateSEOContent JSON_stringify env self title
            contentType keywords targetAudience (Some medium) tone spyfuData w)
  /\ (forall title contentType keywords targetAudience tone spyfuData,
      exists before after,
      forall env self bucket w,
        providerCalls
          (snd (generateSEOContent JSON_stringify env self title
                  contentType keywords targetAudience (Some bucket) tone
                  spyfuData w))
        = providerCalls w
            ++ [(model self,
                 before ++ js "- Target Length: " ++ lengthGuide bucket
                   ++ nl ++ after)]).
Proof.
  split; [now repeat split|]. split; [reflexivity|].
  intros ttl ctype kws audience tn spyfu.
  eexists (lines [ _; _; _; _; _ ] ++ nl).
  eexists (lines (_ :: _ :: _)).
  intros env self bucket w.
  rewrite generateSEOContent_calls. do 3 f_equal.
  cbn [default from_option].
  unfold buildSEOContentPrompt.
  cbn [title contentType keywords targetAudience contentLength tone spyfuData].
  match goal with
  | |- lines (?a :: ?b :: ?c :: ?d :: ?e :: ?x :: ?rest) = _ =>
      change (lines (a :: b :: c :: d :: e :: x :: rest))
        with (lines ([a; b; c; d; e] ++ ([x] ++ rest)))
  end.
  rewrite lines_app by discriminate.
  rewrite lines_app by discriminate.
  change (lines [js "- Target Length: " ++ lengthGuide bucket])
    with (js "- Target Length: " ++ lengthGuide bucket).
  rewrite <- !app_assoc. reflexivity.
Qed.

(** The tails [buildSystemPrompt] can put after the base prompt. *)
Lemma buildSystemPrompt_base sessionType context :
  exists tail,
    buildSystemPrompt sessionType context = basePrompt ++ tail
    /\ In tail
         [ js " You help brainstorm ideas, structure content, and optimize for search engines. Be creative, practical, and focused on results.";
           js " You specialize in improving existing content for better search rankings. Analyze content gaps, keyword opportunities, and provide specific optimization recommendations.";
           js " You excel at rewriting content to improve clarity, engagement, and SEO performance while preserving the original message and tone.";
           [] ].
Proof.
  unfold buildSystemPrompt. repeat case_decide.
  - eexists. split; [reflexivity|]. now left.
  - eexists. split; [reflexivity|]. right. now left.
  - eexists. split; [reflexivity|]. right. right. now left.
  - exists []. split; [now rewrite app_nil_r|]. right. right. right. now left.
Qed.

Lemma buildChatPrompt_shape conversation context prompt :
  chatPromptOf conversation context = Returned prompt ->
  exists spyfuData,
    getProp (orDefault (JsObject []) context) (js "spyfuData")
      = Returned spyfuData
    /\ prompt
       = concat (map renderMessage conversation)
           ++ (if truthy spyfuData
               then contextBlock JSON_stringify spyfuData else [])
           ++ js "Please provide a helpful, actionable response:".
Proof.
  unfold buildChatPrompt.
  destruct (getProp _ _) as [spyfuData|e]; [|discriminate].
  intros H. apply Returned_inj in H. subst prompt.
  exists spyfuData. split; [reflexivity|].
  rewrite fold_appendMessage, app_nil_l.
  destruct (truthy spyfuData); unfold contextBlock;
    now rewrite <- ?app_assoc.
Qed.


Transparent js.

End PromptProperties.

(** ** The model test route *)

Section RouteProperties.

Import TestModels.

Variable Client : Type.
Variable select : jsstring -> Outcome (Client * jsstring).
Variable create : Client -> CompletionParams -> CreateOutcome.

(** A throw of [selectClientAndModel] goes to the [catch] block before any
    call is made. *)
Lemma postTestModel_select_throws req calls e :
  select (modelId req) = Thrown e ->
  postTestModel Client select create req calls
  = (Returned {| status := 500;
                 json := Failure (js "Failed to test model " ++ modelId req)
                           (messageOf e) |},
     calls).
Proof.
  intros H. unfold postTestModel, tryCatch, bind, lift. now rewrite H.
Qed.

(** C3, as the route has it. When [selectClientAndModel] throws for the
    identifier of the request (what the model configuration service does
    for an identifier it does not know), the response is the failure
    object with status 500, carrying the message of the error, and the
    list of outbound calls is as before: [create] is not invoked. *)
Theorem postTestModel_unknown_model req calls e :
  select (modelId req) = Thrown e ->
  postTestModel Client select create req calls
  = (Returned {| status := 500;
                 json := Failure (js "Failed to test model " ++ modelId req)
                           (messageOf e) |},
     calls).
Proof. exact (postTestModel_select_throws req calls e). Qed.

End RouteProperties.

Lemma selectClientAndModel_unknown {Client}
    (configurations : gmap jsstring (Client * jsstring)) modelId :
  configurations !! modelId = None ->
  TestModels.selectClientAndModel configurations modelId
    = Thrown (Error (js "Unsupported model: " ++ modelId)).
Proof. unfold TestModels.selectClientAndModel. now intros ->. Qed.

(** C3 as the spec words it fails: for a model no configuration knows the
    status of the response is 500, which is no 4xx status. *)
Lemma postTestModel_unknown_model_status_500 :
  exists response,
    TestModels.postTestModel jsstring (TestModels.selectClientAndModel ∅)
      TestModels.anyCompletion TestModels.unknownRequest []
    = (Returned response, [])
    /\ TestModels.status response = 500
    /\ ~ (400 <= TestModels.status response <= 499).
Proof.
  eexists. split.
  - apply postTestModel_select_throws.
    apply selectClientAndModel_unknown, lookup_empty.
  - cbn. split; [reflexivity | lia].
Qed.

Lemma postTestModel_unknown_model_witness :
  TestModels.postTestModel jsstring (TestModels.selectClientAndModel ∅)
    TestModels.anyCompletion TestModels.unknownRequest []
  = (Returned
       {| TestModels.status := 500;
          TestModels.json :=
            TestModels.Failure (js "Failed to test model gpt-9")
              (js "Unsupported model: gpt-9") |},
     []).
Proof.
  apply (postTestModel_unknown_model jsstring
           (TestModels.selectClientAndModel ∅) TestModels.anyCompletion
           TestModels.unknownRequest []
           (Error (js "Unsupported model: gpt-9"))).
  apply selectClientAndModel_unknown, lookup_empty.
Defined.

(** ** Suggestion extraction *)

Lemma pushMatches_filter matches : forall suggestions,
  pushMatches suggestions matches
    = suggestions ++ List.filter inBand (map cleanMatch matches).
Proof.
  unfold pushMatches.
  induction matches as [|m matches IH]; intros suggestions; cbn.
  - now rewrite app_nil_r.
  - rewrite IH. destruct (inBand (cleanMatch m)); [|reflexivity].
    now rewrite <- app_assoc.
Qed.

Lemma String_match_loop r s :
  match String_match r s with
  | Some matches => matches = matchLoop r 0 0 s /\ matches <> []
  | None => matchLoop r 0 0 s = []
  end.
Proof.
  unfold String_match. destruct (matchLoop r 0 0 s); [reflexivity|].
  split; [reflexivity | discriminate].
Qed.

Lemma String_match_Some r s matches :
  String_match r s = Some matches <-> (matches = matchLoop r 0 0 s /\ matches <> []).
Proof.
  unfold String_match. destruct (matchLoop r 0 0 s) as [|m ms].
  - split; [discriminate | now intros [-> H]].
  - split; [intros [= <-]; now split | now intros [-> _]].
Qed.

Lemma fold_patterns response (ps : list regex) : forall suggestions,
  fold_left
    (fun acc pattern =>
       match String_match pattern response with
       | Some matches => pushMatches acc matches
       | None => acc
       end) ps suggestions
  = suggestions
      ++ List.filter inBand
           (map cleanMatch
              (flat_map (fun pattern => matchLoop pattern 0 0 response) ps)).
Proof.
  induction ps as [|p ps IH]; intros suggestions; cbn [fold_left flat_map].
  - cbn. now rewrite app_nil_r.
  - rewrite IH, map_app, List.filter_app, app_assoc. f_equal.
    pose proof (String_match_loop p response) as H.
    destruct (String_match p response) as [matches|].
    + destruct H as [-> _]. apply pushMatches_filter.
    + rewrite H. cbn. now rewrite app_nil_r.
Qed.

(** [extractSuggestions] as one pipeline: the cleaned matches whose length
    is in the band, in the order visited, cut after the fifth. *)
Lemma extractSuggestions_pipeline response :
  extractSuggestions response
    = take 5 (List.filter inBand (map cleanMatch (allMatches response))).
Proof.
  unfold extractSuggestions, allMatches. now rewrite fold_patterns.
Qed.

Lemma In_take {A} n (l : list A) x : In x (take n l) -> In x l.
Proof.
  revert l. induction n as [|n IH]; intros [|a l]; cbn; try tauto.
  intros [H|H]; [now left | right; now apply IH].
Qed.

Lemma inBand_true s : inBand s = true <-> 10 < length s < 100.
Proof.
  unfold inBand. rewrite andb_true_iff, !Nat.ltb_lt. tauto.
Qed.

(** Every suggestion is the cleaned form of a match some pattern found in
    the reply, and its length is in the band. *)
Lemma extractSuggestions_from_match response s :
  In s (extractSuggestions response) ->
  exists pattern matches m,
    In pattern patterns
    /\ String_match pattern response = Some matches
    /\ In m matches
    /\ s = cleanMatch m
    /\ 10 < length s < 100.
Proof.
  rewrite extractSuggestions_pipeline. intros H. apply In_take in H.
  apply filter_In in H. destruct H as [H Hband].
  apply in_map_iff in H. destruct H as (m & <- & Hm).
  unfold allMatches in Hm. apply in_flat_map in Hm.
  destruct Hm as (pattern & Hp & Hm).
  exists pattern, (matchLoop pattern 0 0 response), m.
  split; [exact Hp|]. split.
  - apply String_match_Some. split; [reflexivity|]. now destruct (matchLoop _ _ _ _).
  - split; [exact Hm|]. split; [reflexivity|]. now apply inBand_true.
Qed.

Lemma extractSuggestions_at_most_5 response :
  length (extractSuggestions response) <= 5.
Proof.
  rewrite extractSuggestions_pipeline, length_take. lia.
Qed.


(** C4, at the reply "You  could restructure the introduction" (two
    spaces after "You"): the third pattern matches the whole reply, the
    leading-phrase pattern, which allows one space only, removes nothing,
    and the suggestion returned still begins with "You  could". *)
Theorem extractSuggestions_keeps_phrase :
  String_match (nth 2 patterns Empty)
    (js "You  could restructure the introduction")
    = Some [js "You  could restructure the introduction"]
  /\ String_replace leadingPhrase []
       (js "You  could restructure the introduction")
     = js "You  could restructure the introduction"
  /\ extractSuggestions (js "You  could restructure the introduction")
     = [js "You  could restructure the introduction"]
  /\ extractSuggestions (js "You could restructure the introduction")
     = [js "restructure the introduction"].
Proof. now vm_compute. Qed.

(** Every match the loop reports is a piece of the input at which the
    pattern matches, of the length the matcher found. *)
Lemma matchLoop_sound r s : forall i skip m,
  In m (matchLoop r i skip s) ->
  exists pre post e,
    s = pre ++ m ++ post
    /\ matchAt r (i + length pre) (m ++ post) = Some e
    /\ m = take (e - (i + length pre)) (m ++ post).
Proof.
  induction s as [|c s IH]; intros i skip m Hin.
  - destruct skip as [|n]; cbn in Hin; [|contradiction].
    destruct (matchAt r i []) as [e|] eqn:He; [|contradiction].
    rewrite take_nil in Hin. destruct Hin as [<-|[]].
    exists [], [], e. cbn [app length].
    rewrite Nat.add_0_r, He, take_nil. now repeat split.
  - destruct skip as [|n]; cbn [matchLoop] in Hin.
    + destruct (matchAt r i (c :: s)) as [e|] eqn:He.
      * destruct Hin as [<-|Hin].
        -- exists [], (drop (e - i) (c :: s)), e. cbn [app length].
           rewrite Nat.add_0_r, take_drop, He. now repeat split.
        -- destruct (IH _ _ _ Hin) as (pre & post & e' & -> & Hm & Ht).
           exists (c :: pre), post, e'. cbn [app length].
           rewrite Nat.add_succ_r. now repeat split.
      * destruct (IH _ _ _ Hin) as (pre & post & e' & -> & Hm & Ht).
        exists (c :: pre), post, e'. cbn [app length].
        rewrite Nat.add_succ_r. now repeat split.
    + destruct (IH _ _ _ Hin) as (pre & post & e' & -> & Hm & Ht).
      exists (c :: pre), post, e'. cbn [app length].
      rewrite Nat.add_succ_r. now repeat split.
Qed.

Lemma allMatches_substring response m :
  In m (allMatches response) ->
  exists pre post, response = pre ++ m ++ post.
Proof.
  unfold allMatches. intros H. apply in_flat_map in H.
  destruct H as (pattern & _ & H).
  destruct (matchLoop_sound _ _ _ _ _ H) as (pre & post & _ & -> & _).
  now exists pre, post.
Qed.

(** The matcher on the corner cases of the patterns: [\s+] gives back a
    space when [[^.]+] would otherwise have nothing to take; the [i] flag;
    a match inside a word; a match across a line break. *)
Example String_match_backtracks :
  String_match (nth 0 patterns Empty)
    (js "Please consider  . Also CONSIDER this option carefully. ok")
  = Some [js "consider  "; js "CONSIDER this option carefully"].
Proof. now vm_compute. Qed.

Example String_match_needs_text :
  String_match (nth 0 patterns Empty) (js "Things to consider .") = None.
Proof. now vm_compute. Qed.

Example String_match_inside_word :
  String_match (nth 1 patterns Empty) (js "The country side is nice. Done")
  = Some [js "try side is nice"].
Proof. now vm_compute. Qed.

Example extractSuggestions_order :
  extractSuggestions
    (js "You could add an FAQ section. Consider adding a table of contents. Try it. Suggestion:use shorter paragraphs.")
  = [ js "adding a table of contents";
      js "add an FAQ section";
      js "use shorter paragraphs" ].
Proof. now vm_compute. Qed.

Example extractSuggestions_line_break :
  extractSuggestions (js "I" ++ nl ++ js "recommend a shorter title.")
  = [ js "I" ++ nl ++ js "recommend a shorter title" ].
Proof. now vm_compute. Qed.

(** The scenario of the spec: a "content_creation" session without prior
    messages and the message "Write an intro about SEO". *)
Example chat_scenario :
  let run :=
    chatWithGemini plainStringify plainISO envUp service0 1
      (js "Write an intro about SEO") (js "alice") JsUndefined world1 in
  (exists before after,
     chatPrompt plainStringify session1 (js "Write an intro about SEO")
       JsUndefined
     = Returned (js "SYSTEM: You are an expert content strategist" ++ before
                   ++ js "USER: Write an intro about SEO" ++ after))
  /\ succeeded (fst run) = true
  /\ option_map (fun session => length (conversationHistoryOf session))
       (find (matchesSession 1 (js "alice")) (sessions (snd run)))
     = Some 2.
Proof.
  split; [|now vm_compute].
  exists (js " and SEO specialist helping users create high-quality, search-optimized content. You help brainstorm ideas, structure content, and optimize for search engines. Be creative, practical, and focused on results." ++ nl ++ nl).
  exists (nl ++ nl ++ js "Please provide a helpful, actionable response:").
  now vm_compute.
Qed.

(** ** The properties on the example data *)

Lemma chatWithGemini_provider_failure_witness :
  exists w',
    chatWithGemini plainStringify plainISO envDown service0 1
      (js "Write an intro about SEO") (js "alice") JsUndefined world1
    = (Thrown (Error (js "Failed to process chat message")), w')
    /\ sessions w' = sessions world1
    /\ length (providerCalls w') = 1.
Proof.
  destruct (chatWithGemini_provider_failure plainStringify plainISO envDown
              service0 1 (js "Write an intro about SEO") (js "alice")
              JsUndefined world1 session1 _
              (Error (js "503 Service Unavailable"))
              eq_refl eq_refl eq_refl) as (w' & Hc & Hs & Hp).
  exists w'. split; [exact Hc|]. split; [exact Hs|]. now rewrite Hp.
Defined.


Lemma chatWithGemini_session_not_found_witness :
  chatWithGemini plainStringify plainISO envUp service0 2
    (js "Write an intro about SEO") (js "alice") JsUndefined world1
  = (Thrown (Error (js "Chat session not found")), world1).
Proof.
  apply (chatWithGemini_session_not_found plainStringify plainISO envUp
           service0 2 (js "Write an intro about SEO") (js "alice")
           JsUndefined world1).
  intros row [<-|[]] [Hid _]. discriminate Hid.
Defined.

Lemma getChatSession_owner_scoped_witness :
  chatWithGemini plainStringify plainISO envUp service0 1
    (js "Write an intro about SEO") (js "bob") JsUndefined world1
  = (Thrown (Error (js "Chat session not found")), world1).
Proof.
  destruct (getChatSession_owner_scoped plainStringify plainISO service0 1
              (js "bob") world1) as (_ & _ & H).
  refine (proj1 (H envUp (js "Write an intro about SEO") JsUndefined _)).
  intros row [<-|[]] _ Hu. discriminate Hu.
Defined.

Lemma constructor_requires_api_key_witness :
  constructor ∅
  = Thrown (Error (js "GEMINI_API_KEY environment variable is required")).
Proof.
  refine (proj1 (constructor_requires_api_key ∅) _). apply lookup_empty.
Defined.



(** * Further properties of the service *)

Lemma js_injective_cases :
  js "user" <> js "system" /\ js "assistant" <> js "system"
  /\ js "assistant" <> js "user".
Proof. repeat split; intros H; vm_compute in H; discriminate H. Qed.

Lemma renderMessage_system text ts :
  renderMessage (mkMessage (js "system") text ts)
    = js "SYSTEM: " ++ text ++ nl ++ nl.
Proof.
  unfold renderMessage, appendMessage. cbn [role content].
  case_decide; [reflexivity | congruence].
Qed.

Lemma renderMessage_user text ts :
  renderMessage (mkMessage (js "user") text ts)
    = js "USER: " ++ text ++ nl ++ nl.
Proof.
  destruct js_injective_cases as (Hus & _ & _).
  unfold renderMessage, appendMessage. cbn [role content].
  repeat case_decide; try congruence. reflexivity.
Qed.

Lemma renderMessage_assistant text ts :
  renderMessage (mkMessage (js "assistant") text ts)
    = js "ASSISTANT: " ++ text ++ nl ++ nl.
Proof.
  destruct js_injective_cases as (_ & Has & Hau).
  unfold renderMessage, appendMessage. cbn [role content].
  repeat case_decide; try congruence. reflexivity.
Qed.

Lemma added_length turns : forall os,
  length os = length turns ->
  forall toISOString,
  length (logAdded toISOString turns os)
    = 2 * length (List.filter succeeded os).
Proof.
  induction turns as [|t turns IH]; intros [|o os] Hlen toISOString;
    try discriminate; [reflexivity|].
  cbn [logAdded List.filter]. rewrite length_app, (IH os) by now injection Hlen.
  destruct o as [reply|e]; cbn; lia.
Qed.

Lemma find_app_found {A} (f : A -> bool) (l : list A) x y :
  find f l = Some y -> find f (l ++ [x]) = Some y.
Proof.
  induction l as [|a l IH]; cbn; [discriminate|].
  destruct (f a); [trivial | exact IH].
Qed.

Section FurtherServiceProperties.

Variable JSON_stringify : JsValue -> jsstring.
Variable toISOString : Date -> jsstring.

Abbreviation chat' := (chatWithGemini JSON_stringify toISOString).

(** X1. Starting a session under a key no row has yet and looking it up as
    its owner returns the session just created, with an empty log, the
    type "content_creation" when none was given and the context [{}] when
    none was given; no other user finds it, lookups under other keys answer
    as before, and no provider call is made. *)
Theorem startContentSession_round_trip self newId now uid piece type ctx w :
  (forall row, In row (sessions w) -> id row <> newId) ->
  exists session w',
    startContentSession self newId now uid piece type ctx w
      = (Returned session, w')
    /\ getChatSession self newId uid w' = (Returned (Some session), w')
    /\ messages session = MessagesArray []
    /\ sessionType session = default (js "content_creation") type
    /\ context session = orDefault (JsObject []) ctx
    /\ (forall other, other <> uid ->
          getChatSession self newId other w' = (Returned None, w'))
    /\ (forall sid' uid', sid' <> newId ->
          getChatSession self sid' uid' w'
            = (fst (getChatSession self sid' uid' w), w'))
    /\ providerCalls w' = providerCalls w.
Proof.
  intros Hfresh. unfold startContentSession, db_insert, getChatSession.
  eexists. eexists. split; [reflexivity|].
  rewrite !db_select_find. cbn [sessions providerCalls fst].
  assert (Hnone : forall u, find (matchesSession newId u) (sessions w) = None).
  { intros u. apply find_matches_none. intros row Hin [Hid _].
    exact (Hfresh row Hin Hid). }
  split; [|split; [reflexivity|split; [reflexivity|split; [reflexivity|]]]].
  - rewrite find_app_none by apply Hnone.
    unfold matchesSession. cbn [id userId].
    now rewrite Z.eqb_refl, bool_decide_eq_true_2.
  - split; [|split; [|reflexivity]].
    + intros other Hother. rewrite db_select_find. cbn [sessions].
      rewrite find_app_none by apply Hnone.
      unfold matchesSession. cbn [id userId].
      now rewrite Z.eqb_refl, bool_decide_eq_false_2 by congruence.
    + intros sid' uid' Hne. rewrite !db_select_find. cbn [fst sessions].
      do 2 f_equal.
      destruct (find (matchesSession sid' uid') (sessions w)) as [y|] eqn:Hf.
      * now apply find_app_found.
      * rewrite find_app_none by exact Hf.
        unfold matchesSession. cbn [id userId].
        apply Z.eqb_neq in Hne. rewrite Z.eqb_sym in Hne. now rewrite Hne.
Qed.


(** The prompt of an exchange, spelled out. *)
Lemma chatPrompt_shape session userMessage ctx spyfu :
  getProp (orDefault (JsObject []) ctx) (js "spyfuData") = Returned spyfu ->
  chatPrompt JSON_stringify session userMessage ctx
  = Returned
      (js "SYSTEM: "
         ++ buildSystemPrompt (sessionType session)
              (orDefault (JsObject []) ctx)
         ++ nl ++ nl
         ++ concat (map renderMessage (conversationHistoryOf session))
         ++ js "USER: " ++ userMessage ++ nl ++ nl
         ++ (if truthy spyfu then contextBlock JSON_stringify spyfu else [])
         ++ js "Please provide a helpful, actionable response:").
Proof.
  intros Hp. unfold chatPrompt.
  destruct (buildChatPrompt JSON_stringify _ _) as [prompt|e] eqn:Hb.
  - destruct (buildChatPrompt_shape _ _ _ _ Hb) as (spyfu' & Hp' & ->).
    assert (Hidem : orDefault (JsObject []) (orDefault (JsObject []) ctx)
                    = orDefault (JsObject []) ctx) by now destruct ctx.
    rewrite Hidem, Hp in Hp'. apply Returned_inj in Hp'. subst spyfu'.
    f_equal. rewrite !map_app, !concat_app. cbn [map concat].
    rewrite renderMessage_system, renderMessage_user, app_nil_r.
    now rewrite <- !app_assoc.
  - exfalso. unfold buildChatPrompt in Hb.
    assert (Hidem : orDefault (JsObject []) (orDefault (JsObject []) ctx)
                    = orDefault (JsObject []) ctx) by now destruct ctx.
    rewrite Hidem, Hp in Hb. discriminate Hb.
Qed.


(** X4. With [null] passed as context an exchange on an existing session
    fails with the generic "Failed to process chat message" error before
    the provider is called: the state, log of calls included, is as it
    was. *)
Theorem chatWithGemini_null_context env self sid userMessage uid w session :
  find (matchesSession sid uid) (sessions w) = Some session ->
  chat' env self sid userMessage uid JsNull w
    = (Thrown (Error (js "Failed to process chat message")), w).
Proof.
  intros Hf. now rewrite (chat_found _ _ _ _ _ _ _ _ _ _ Hf).
Qed.

Lemma Forall2_sameButLog_refl sid rows : Forall2 (sameButLog sid) rows rows.
Proof.
  induction rows as [|row rows IH]; constructor; [|exact IH].
  now repeat split.
Qed.

Lemma Forall2_sameButLog_update sid l now rows :
  Forall2 (sameButLog sid) rows
    (map (fun row => if (id row =? sid)%Z then setMessages l now row else row)
       rows).
Proof.
  induction rows as [|row rows IH]; cbn [map]; constructor; [|exact IH].
  destruct (id row =? sid)%Z eqn:E.
  - apply Z.eqb_eq in E. repeat split. intros Hne. contradiction.
  - now repeat split.
Qed.

(** X5. Whatever its outcome, an exchange creates and deletes no row and
    leaves the key, the owner, the content piece, the type and the context
    of every row as they were, and every row under another key untouched;
    and it calls the provider once at most: the log of calls is the old one,
    or the old one with one call added. *)
Theorem chatWithGemini_frame env self sid userMessage uid ctx w :
  let w' := snd (chat' env self sid userMessage uid ctx w) in
  Forall2 (sameButLog sid) (sessions w) (sessions w')
  /\ (providerCalls w' = providerCalls w
      \/ exists prompt,
           providerCalls w' = providerCalls w ++ [(model self, prompt)]).
Proof.
  cbn zeta.
  destruct (find (matchesSession sid uid) (sessions w)) as [session|] eqn:Hf.
  - rewrite (chat_found _ _ _ _ _ _ _ _ _ _ Hf).
    destruct (chatPrompt _ _ _ _) as [prompt|e]; cbn zeta.
    + destruct (generateContent env prompt) as [text|e];
        cbn [snd sessions providerCalls].
      * split; [apply Forall2_sameButLog_update | right; now exists prompt].
      * split; [apply Forall2_sameButLog_refl | right; now exists prompt].
    + split; [apply Forall2_sameButLog_refl | now left].
  - rewrite (chat_not_found _ _ _ _ _ _ _ _ _ Hf).
    split; [apply Forall2_sameButLog_refl | now left].
Qed.

(** X6. The reply of a successful exchange carries the session id it was
    called with, the text the provider gave for the prompt of the exchange,
    and as suggestions what [extractSuggestions] finds in that text, five
    at most; the same text is the content of the assistant message that now
    ends the log. *)
Theorem chatWithGemini_reply env self sid userMessage uid ctx w session reply w' :
  find (matchesSession sid uid) (sessions w) = Some session ->
  chat' env self sid userMessage uid ctx w = (Returned reply, w') ->
  sessionId reply = sid
  /\ (exists prompt,
        chatPrompt JSON_stringify session userMessage ctx = Returned prompt
        /\ generateContent env prompt = Replies (message reply))
  /\ suggestions reply = extractSuggestions (message reply)
  /\ length (suggestions reply) <= 5
  /\ exists session',
       find (matchesSession sid uid) (sessions w') = Some session'
       /\ last (conversationHistoryOf session')
          = Some (mkMessage (js "assistant") (message reply)
                    (Some (toISOString (now2 env)))).
Proof.
  intros Hf Hc.
  destruct (chat_returned _ _ _ _ _ _ _ _ _ _ _ _ Hf Hc) as [Hf' _].
  rewrite (chat_found _ _ _ _ _ _ _ _ _ _ Hf) in Hc.
  destruct (chatPrompt _ _ _ _) as [prompt|e] eqn:Hp; [|discriminate].
  cbn zeta in Hc.
  destruct (generateContent env prompt) as [text|e] eqn:Hg; [|discriminate].
  injection Hc as <- <-. cbn [sessionId message suggestions].
  split; [reflexivity|]. split; [now exists prompt|].
  split; [reflexivity|]. split; [apply extractSuggestions_at_most_5|].
  eexists. split; [exact Hf'|].
  cbn [conversationHistoryOf setMessages messages message].
  unfold newTurns.
  match goal with
  | |- last (?h ++ [?u; ?a]) = _ =>
      change (h ++ [u; a]) with (h ++ [u] ++ [a])
  end.
  now rewrite app_assoc, last_snoc.
Qed.

(** *** The one-shot methods *)

(** A method that only sends a prompt: the provider's text on success, its
    own error on any failure, one call, the table untouched. *)
Lemma oneShot_outcome env self prompt failure w :
  tryCatch (model_generateContent env self prompt)
    (fun _ => throw (Error failure)) w
  = (match generateContent env prompt with
     | Replies text => Returned text
     | Fails _ => Thrown (Error failure)
     end,
     {| sessions := sessions w;
        providerCalls := providerCalls w ++ [(model self, prompt)] |}).
Proof.
  unfold tryCatch, model_generateContent, throw.
  now destruct (generateContent env prompt).
Qed.

(** X7. [generateSEOContent] returns the text of the provider when the
    provider answers, and throws "Failed to generate content", whatever the
    provider's own error, when it fails; either way it has made exactly one
    call and the table is untouched. *)
Theorem generateSEOContent_outcome env self ttl ctype kws audience
    bucket tn spyfu w :
  let prompt :=
    buildSEOContentPrompt JSON_stringify
      {| title := ttl; contentType := ctype; keywords := kws;
         targetAudience := audience;
         contentLength := lengthGuide (default medium bucket);
         tone := default (js "professional") tn;
         spyfuData := spyfu |} in
  generateSEOContent JSON_stringify env self ttl ctype kws audience bucket
    tn spyfu w
  = (match generateContent env prompt with
     | Replies text => Returned text
     | Fails _ => Thrown (Error (js "Failed to generate content"))
     end,
     {| sessions := sessions w;
        providerCalls := providerCalls w ++ [(model self, prompt)] |}).
Proof.
  cbn zeta. unfold generateSEOContent. apply oneShot_outcome.
Qed.

Lemma lines_cons x y l : lines (x :: y :: l) = x ++ nl ++ lines (y :: l).
Proof. reflexivity. Qed.

Lemma occurs_skip {A} (x X : list A) (P : list A -> list A) :
  (exists before after, X = before ++ P after) ->
  exists before after, x ++ X = before ++ P after.
Proof.
  intros (before & after & ->). exists (x ++ before), after.
  now rewrite app_assoc.
Qed.

Opaque js.

(** X8. [rewriteContentForSEO] sends one prompt and returns the provider's
    text, or throws "Failed to rewrite content" when the provider fails,
    the table untouched; a call without improvements and a call with an
    empty list of improvements behave alike, both asking for "General SEO
    optimization". *)
Theorem rewriteContentForSEO_outcome env self original kws improvements
    insights w :
  (let prompt :=
     rewritePrompt JSON_stringify original kws (default [] improvements)
       insights in
   rewriteContentForSEO JSON_stringify env self original kws improvements
     insights w
   = (match generateContent env prompt with
      | Replies text => Returned text
      | Fails _ => Thrown (Error (js "Failed to rewrite content"))
      end,
      {| sessions := sessions w;
         providerCalls := providerCalls w ++ [(model self, prompt)] |}))
  /\ rewriteContentForSEO JSON_stringify env self original kws None insights w
     = rewriteContentForSEO JSON_stringify env self original kws (Some [])
         insights w
  /\ exists before after,
       rewritePrompt JSON_stringify original kws [] insights
       = before ++ js "SPECIFIC IMPROVEMENTS REQUESTED:" ++ nl
           ++ js "General SEO optimization" ++ nl ++ after.
Proof.
  split; [|split].
  - cbn zeta. unfold rewriteContentForSEO. apply oneShot_outcome.
  - unfold rewriteContentForSEO. cbn [default from_option]. reflexivity.
  - unfold rewritePrompt.
    change (0 <? length (@nil jsstring)) with false. cbv iota.
    rewrite !lines_cons.
    do 16 apply (occurs_skip _ _
                   (fun after =>
                      js "SPECIFIC IMPROVEMENTS REQUESTED:" ++ nl
                        ++ js "General SEO optimization" ++ nl ++ after)).
    exists []. eexists. rewrite app_nil_l. reflexivity.
Qed.

(** X9. Of the content given to [generateHugoFrontmatter] only the first
    500 code units count: a run on the content and a run on its first 500
    code units are the same run; the prompt shows that preview, which is the
    whole content when it is no longer than that, and always puts "..."
    after it. *)
Theorem generateHugoFrontmatter_preview env self ttl content ctype kws fields w :
  generateHugoFrontmatter JSON_stringify env self ttl content ctype kws fields w
  = generateHugoFrontmatter JSON_stringify env self ttl (take 500 content)
      ctype kws fields w
  /\ (forall keywords keyCount,
        exists before after,
          frontmatterPrompt JSON_stringify ttl content ctype keywords fields
            keyCount
          = before ++ js "CONTENT PREVIEW:" ++ nl
              ++ take 500 content ++ js "..." ++ nl ++ after)
  /\ length (take 500 content) <= 500
  /\ (length content <= 500 -> take 500 content = content).
Proof.
  split; [|split; [|split]].
  - unfold generateHugoFrontmatter, frontmatterPrompt, substring0.
    now rewrite take_take.
  - intros keywords keyCount. unfold frontmatterPrompt, substring0.
    rewrite !lines_cons.
    do 12 apply (occurs_skip _ _
                   (fun after =>
                      js "CONTENT PREVIEW:" ++ nl
                        ++ take 500 content ++ js "..." ++ nl ++ after)).
    exists []. eexists. rewrite app_nil_l, <- !app_assoc. reflexivity.
  - rewrite length_take. lia.
  - intros H. now apply take_ge.
Qed.

(** X10. With [null] as custom fields [generateHugoFrontmatter] throws a
    TypeError before it calls the provider ([Object.keys] is applied
    outside the [try]), and the state is as it was; with any other value it
    makes exactly one call and returns the provider's text or throws
    "Failed to generate frontmatter", the table untouched; without custom
    fields, or with the empty object, the prompt says "None". *)
Theorem generateHugoFrontmatter_outcome env self ttl content ctype kws fields w :
  generateHugoFrontmatter JSON_stringify env self ttl content ctype kws JsNull w
    = (Thrown (TypeError (js "Cannot convert undefined or null to object")), w)
  /\ (fields <> JsNull ->
      exists keyCount,
        Object_keys_length (orDefault (JsObject []) fields) = Returned keyCount
        /\ let prompt :=
             frontmatterPrompt JSON_stringify ttl content ctype
               (default [] kws) (orDefault (JsObject []) fields) keyCount in
        generateHugoFrontmatter JSON_stringify env self ttl content ctype kws
          fields w
        = (match generateContent env prompt with
           | Replies text => Returned text
           | Fails _ => Thrown (Error (js "Failed to generate frontmatter"))
           end,
           {| sessions := sessions w;
              providerCalls := providerCalls w ++ [(model self, prompt)] |}))
  /\ generateHugoFrontmatter JSON_stringify env self ttl content ctype kws
       JsUndefined w
     = generateHugoFrontmatter JSON_stringify env self ttl content ctype kws
         (JsObject []) w
  /\ exists before after,
       frontmatterPrompt JSON_stringify ttl content ctype (default [] kws)
         (JsObject []) 0
       = before ++ js "Additional fields requested:" ++ nl ++ js "None"
           ++ nl ++ after.
Proof.
  split; [reflexivity|]. split; [|split; [reflexivity|]].
  - intros Hnull. unfold generateHugoFrontmatter, bind, lift.
    destruct fields; try contradiction; cbn [orDefault Object_keys_length];
      eexists; (split; [reflexivity|]); cbn zeta; apply oneShot_outcome.
  - unfold frontmatterPrompt. change (0 <? 0) with false. cbv iota.
    rewrite !lines_cons.
    do 34 apply (occurs_skip _ _
                   (fun after =>
                      js "Additional fields requested:" ++ nl ++ js "None"
                        ++ nl ++ after)).
    exists []. eexists. rewrite app_nil_l. reflexivity.
Qed.

Transparent js.

End FurtherServiceProperties.

(** * Further properties of the suggestion extraction *)

Lemma occursIn_refl x : occursIn x x.
Proof. exists [], []. now rewrite app_nil_r. Qed.

Lemma occursIn_trans x y z : occursIn x y -> occursIn y z -> occursIn x z.
Proof.
  intros (b1 & a1 & ->) (b2 & a2 & ->).
  exists (b2 ++ b1), (a1 ++ a2). now rewrite <- !app_assoc.
Qed.

Lemma occursIn_take n (s : jsstring) : occursIn (take n s) s.
Proof. exists [], (drop n s). cbn. now rewrite take_drop. Qed.

Lemma occursIn_drop n (s : jsstring) : occursIn (drop n s) s.
Proof. exists (take n s), []. now rewrite app_nil_r, take_drop. Qed.

Lemma occursIn_length x y : occursIn x y -> length x <= length y.
Proof. intros (b & a & ->). rewrite !length_app. lia. Qed.

Lemma occursIn_forallb (P : char16 -> bool) x y :
  occursIn x y -> forallb P y = true -> forallb P x = true.
Proof.
  intros (b & a & ->). rewrite !forallb_app, !andb_true_iff. tauto.
Qed.

(** *** What the matcher consumes *)

Lemma star_consumes (P p : char16 -> bool) :
  (forall c, p c = true -> P c = true) ->
  forall s i (k : cont) e,
    star p i s k = Some e ->
    exists n, n <= length s /\ forallb P (take n s) = true
              /\ k (i + n) (drop n s) = Some e.
Proof.
  intros Hp. induction s as [|c s IH]; intros i k e H; cbn [star] in H.
  - exists 0. rewrite Nat.add_0_r. now repeat split.
  - assert (Hstop : k i (c :: s) = Some e ->
                    exists n, n <= length (c :: s)
                              /\ forallb P (take n (c :: s)) = true
                              /\ k (i + n) (drop n (c :: s)) = Some e).
    { intros Hk. exists 0. rewrite Nat.add_0_r. cbn. repeat split; [lia|exact Hk]. }
    destruct (p c) eqn:Hc; [|now apply Hstop].
    destruct (star p (S i) s k) as [e'|] eqn:Hs; [|now apply Hstop].
    injection H as ->. destruct (IH _ _ _ Hs) as (n & Hn & HP & Hk).
    exists (S n). cbn [length take drop forallb].
    rewrite (Hp c Hc), HP, Nat.add_succ_r. repeat split; [lia|exact Hk].
Qed.

Lemma exec_consumes (P : char16 -> bool) r :
  classesWithin P r ->
  forall i s (k : cont) e,
    exec r i s k = Some e ->
    exists n, n <= length s /\ forallb P (take n s) = true
              /\ k (i + n) (drop n s) = Some e.
Proof.
  induction r as [| |p|r1 IH1 r2 IH2|r1 IH1 r2 IH2|p|p];
    intros Hr i s k e H; cbn [exec classesWithin] in *.
  - exists 0. rewrite Nat.add_0_r. now repeat split; try lia.
  - destruct (Nat.eqb i 0); [|discriminate].
    exists 0. rewrite Nat.add_0_r. now repeat split; try lia.
  - destruct s as [|c s]; [discriminate|].
    destruct (p c) eqn:Hc; [|discriminate].
    exists 1. cbn [length take drop forallb].
    rewrite (Hr c Hc), Nat.add_1_r. repeat split; [lia|exact H].
  - destruct Hr as [Hr1 Hr2].
    destruct (IH1 Hr1 _ _ _ _ H) as (n1 & Hn1 & HP1 & Hk1).
    destruct (IH2 Hr2 _ _ _ _ Hk1) as (n2 & Hn2 & HP2 & Hk2).
    exists (n1 + n2). rewrite length_drop in Hn2. split; [lia|].
    split.
    + rewrite <- (take_drop n1 (take (n1 + n2) s)), forallb_app.
      rewrite take_take, Nat.min_l by lia.
      rewrite HP1. cbn [andb].
      rewrite <- take_drop_commute. exact HP2.
    + rewrite drop_drop in Hk2. now rewrite Nat.add_assoc.
  - destruct Hr as [Hr1 Hr2].
    destruct (exec r1 i s k) as [e1|] eqn:H1.
    + injection H as ->. exact (IH1 Hr1 _ _ _ _ H1).
    + exact (IH2 Hr2 _ _ _ _ H).
  - exact (star_consumes P p Hr _ _ _ _ H).
  - destruct s as [|c s]; [discriminate|].
    destruct (p c) eqn:Hc; [|discriminate].
    destruct (star_consumes P p Hr _ _ _ _ H) as (n & Hn & HP & Hk).
    exists (S n). cbn [length take drop forallb].
    rewrite (Hr c Hc), HP, Nat.add_succ_r. repeat split; [lia|exact Hk].
Qed.

(** A match starts where it is tried and ends inside the input, and its
    code units all lie in a class the pattern stays within. *)
Lemma matchAt_consumes (P : char16 -> bool) r i s e :
  classesWithin P r ->
  matchAt r i s = Some e ->
  i <= e <= i + length s /\ forallb P (take (e - i) s) = true.
Proof.
  intros Hr H. destruct (exec_consumes P r Hr _ _ _ _ H) as (n & Hn & HP & Hk).
  injection Hk as <-. replace (i + n - i) with n by lia.
  split; [lia | exact HP].
Qed.

Lemma matchLoop_within (P : char16 -> bool) r s i skip m :
  classesWithin P r ->
  In m (matchLoop r i skip s) ->
  forallb P m = true.
Proof.
  intros Hr Hin.
  destruct (matchLoop_sound _ _ _ _ _ Hin) as (pre & post & e & _ & He & Hm).
  destruct (matchAt_consumes P _ _ _ _ Hr He) as [_ HP].
  now rewrite Hm.
Qed.

(** *** The patterns never take a full stop *)

Lemma whiteSpace_notDot c : isWhiteSpace c = true -> notDot c = true.
Proof.
  intros H. unfold notDot. destruct (N.eqb_spec c 46) as [->|]; [|reflexivity].
  discriminate H.
Qed.

Lemma ciEq_notDot a c :
  (asciiUpper a =? 46)%N = false -> ciEq a c = true -> notDot c = true.
Proof.
  intros Ha H. unfold notDot. destruct (N.eqb_spec c 46) as [->|]; [|reflexivity].
  unfold ciEq in H. apply andb_true_iff in H. destruct H as [_ H].
  apply N.eqb_eq in H. rewrite <- H in Ha. discriminate Ha.
Qed.

Lemma lit_notDot w :
  forallb (fun a => negb (asciiUpper (N_of_ascii a) =? 46)%N)
    (list_ascii_of_string w) = true ->
  classesWithin notDot (lit w).
Proof.
  unfold lit. induction (list_ascii_of_string w) as [|a l IH];
    cbn [forallb fold_right classesWithin]; [trivial|].
  intros H. apply andb_true_iff in H. destruct H as [Ha Hl].
  split; [|exact (IH Hl)].
  intros c. apply ciEq_notDot. now apply negb_true_iff.
Qed.

Ltac within_notDot :=
  lazymatch goal with
  | |- classesWithin _ (lit _) => apply lit_notDot; reflexivity
  | |- classesWithin _ (Seq _ _) => split; within_notDot
  | |- classesWithin _ (Alt _ _) => split; within_notDot
  | |- classesWithin _ (Plus isWhiteSpace) => exact whiteSpace_notDot
  | |- classesWithin _ (Star isWhiteSpace) => exact whiteSpace_notDot
  | |- classesWithin _ (Plus notDot) => intros c H; exact H
  | |- classesWithin _ Bol => exact I
  end.

Lemma patterns_notDot : Forall (classesWithin notDot) patterns.
Proof.
  unfold patterns.
  repeat first [apply List.Forall_nil | apply List.Forall_cons];
    within_notDot.
Qed.

Lemma allMatches_notDot response m :
  In m (allMatches response) -> forallb notDot m = true.
Proof.
  unfold allMatches. intros H. apply in_flat_map in H.
  destruct H as (pattern & Hp & Hm).
  apply (matchLoop_within notDot pattern response 0 0 m); [|exact Hm].
  pose proof patterns_notDot as HF. rewrite List.Forall_forall in HF.
  now apply HF.
Qed.

(** *** Cleaning a match only cuts at its ends *)

Lemma search_leadingPhrase_later s : forall i,
  search leadingPhrase (S i) s = None.
Proof.
  induction s as [|c s IH]; intros i; cbn [search]; unfold matchAt, leadingPhrase;
    cbn [exec Nat.eqb]; [reflexivity | apply IH].
Qed.

Lemma replace_leadingPhrase_drop m :
  exists n, String_replace leadingPhrase [] m = drop n m.
Proof.
  unfold String_replace. destruct m as [|c m]; cbn [search].
  - destruct (matchAt leadingPhrase 0 []) as [e|].
    + exists e. now rewrite drop_nil.
    + now exists 0.
  - destruct (matchAt leadingPhrase 0 (c :: m)) as [e|].
    + now exists e.
    + rewrite search_leadingPhrase_later. now exists 0.
Qed.

Lemma trimStart_drop s : exists n, trimStart s = drop n s.
Proof.
  induction s as [|c s (n & IH)]; [now exists 0|]. cbn [trimStart].
  destruct (isWhiteSpace c); [now exists (S n) | now exists 0].
Qed.

Lemma trimEnd_take s : exists n, trimEnd s = take n s.
Proof.
  unfold trimEnd. destruct (trimStart_drop (rev s)) as (n & ->).
  exists (length s - n). now rewrite skipn_rev, rev_involutive.
Qed.

Lemma trimStart_head s c : head (trimStart s) = Some c -> isWhiteSpace c = false.
Proof.
  induction s as [|x s IH]; cbn [trimStart]; [discriminate|].
  destruct (isWhiteSpace x) eqn:Hx; [exact IH|].
  cbn. now intros [= <-].
Qed.

Lemma last_rev_head {A} (l : list A) : last (rev l) = head l.
Proof.
  destruct l as [|x l]; [reflexivity|]. cbn [rev head]. apply last_snoc.
Qed.

Lemma trimEnd_last s c : last (trimEnd s) = Some c -> isWhiteSpace c = false.
Proof.
  unfold trimEnd. rewrite last_rev_head. apply trimStart_head.
Qed.

Lemma trim_ends s :
  (forall c, head (trim s) = Some c -> isWhiteSpace c = false)
  /\ (forall c, last (trim s) = Some c -> isWhiteSpace c = false).
Proof.
  unfold trim. split; [|apply trimEnd_last].
  intros c H. destruct (trimEnd_take (trimStart s)) as (n & Hn).
  rewrite Hn in H. apply (trimStart_head s).
  destruct n as [|n]; [discriminate|].
  now destruct (trimStart s).
Qed.

Lemma trim_occursIn s : occursIn (trim s) s.
Proof.
  unfold trim. destruct (trimEnd_take (trimStart s)) as (n & ->).
  destruct (trimStart_drop s) as (k & ->).
  eapply occursIn_trans; [apply occursIn_take | apply occursIn_drop].
Qed.

Lemma cleanMatch_occursIn m : occursIn (cleanMatch m) m.
Proof.
  unfold cleanMatch. destruct (replace_leadingPhrase_drop m) as (n & ->).
  eapply occursIn_trans; [apply trim_occursIn | apply occursIn_drop].
Qed.

(** A suggestion and the match it was cleaned from. *)
Lemma extractSuggestions_origin response s :
  In s (extractSuggestions response) ->
  exists m, In m (allMatches response) /\ s = cleanMatch m
            /\ inBand s = true.
Proof.
  rewrite extractSuggestions_pipeline. intros H. apply In_take in H.
  apply filter_In in H. destruct H as [H Hband].
  apply in_map_iff in H. destruct H as (m & <- & Hm). now exists m.
Qed.

(** X11. [extractSuggestions] returns, in this order and cut after the
    fifth, the cleaned matches whose length is in the band, the matches
    being taken pattern by pattern ("consider", "try", "you could",
    "I recommend", "suggestion:") and from left to right within a pattern;
    so it returns five entries at most, and all candidates when there are
    no more than five. *)
Theorem extractSuggestions_first_five response :
  extractSuggestions response
    = take 5 (List.filter inBand (map cleanMatch (allMatches response)))
  /\ length (extractSuggestions response) <= 5
  /\ (length (List.filter inBand (map cleanMatch (allMatches response))) <= 5 ->
      extractSuggestions response
        = List.filter inBand (map cleanMatch (allMatches response))).
Proof.
  rewrite extractSuggestions_pipeline. split; [reflexivity|]. split.
  - rewrite length_take. lia.
  - intros H. now apply take_ge.
Qed.

(** X12. Every suggestion is an excerpt of the reply: it occurs in it as a
    run of consecutive code units, unchanged. A reply of ten code units or
    fewer therefore yields no suggestion. *)
Theorem extractSuggestions_excerpts response :
  (forall s, In s (extractSuggestions response) -> occursIn s response)
  /\ (length response <= 10 -> extractSuggestions response = []).
Proof.
  assert (Hsub : forall s, In s (extractSuggestions response) ->
                           occursIn s response).
  { intros s H. destruct (extractSuggestions_origin _ _ H) as (m & Hm & -> & _).
    eapply occursIn_trans; [apply cleanMatch_occursIn|].
    destruct (allMatches_substring _ _ Hm) as (pre & post & ->).
    now exists pre, post. }
  split; [exact Hsub|]. intros Hlen.
  assert (Hnone : forall s, ~ In s (extractSuggestions response)).
  { intros s Hin.
    pose proof (occursIn_length _ _ (Hsub s Hin)) as Hle.
    destruct (extractSuggestions_origin _ _ Hin) as (_ & _ & _ & Hband).
    apply inBand_true in Hband. lia. }
  destruct (extractSuggestions response) as [|s rest]; [reflexivity|].
  exfalso. apply (Hnone s). now left.
Qed.

(** X13. No suggestion contains a full stop: a match ends before the next
    full stop of the reply, and cleaning it only cuts at its ends. *)
Theorem extractSuggestions_no_full_stop response s :
  In s (extractSuggestions response) -> ~ In 46%N s.
Proof.
  intros H Hdot.
  destruct (extractSuggestions_origin _ _ H) as (m & Hm & -> & _).
  pose proof (occursIn_forallb notDot _ _ (cleanMatch_occursIn m)
                (allMatches_notDot _ _ Hm)) as HP.
  rewrite forallb_forall in HP. specialize (HP _ Hdot). discriminate HP.
Qed.

(** X14. Every suggestion is trimmed: it begins and ends with a code unit
    that is no white space. *)
Theorem extractSuggestions_trimmed response s :
  In s (extractSuggestions response) ->
  exists first final,
    head s = Some first /\ last s = Some final
    /\ isWhiteSpace first = false /\ isWhiteSpace final = false.
Proof.
  intros H.
  destruct (extractSuggestions_origin _ _ H) as (m & _ & -> & Hband).
  apply inBand_true in Hband. unfold cleanMatch in *.
  destruct (trim_ends (String_replace leadingPhrase [] m)) as [Hh Hl].
  destruct (trim (String_replace leadingPhrase [] m)) as [|c t] eqn:E;
    [cbn in Hband; lia|].
  destruct (last (c :: t)) as [z|] eqn:Ez.
  - exists c, z. repeat split; [now apply Hh | now apply Hl].
  - apply last_None in Ez. discriminate Ez.
Qed.

(** * Further properties of the model routes *)

Section FurtherRouteProperties.

Import TestModels.

Variable Client : Type.
Variable select : jsstring -> Outcome (Client * jsstring).
Variable create : Client -> CompletionParams -> CreateOutcome.

Abbreviation post := (postTestModel Client select create).

(** The route once the model is selected. *)
Lemma postTestModel_selected req calls client modelName :
  select (modelId req) = Returned (client, modelName) ->
  post req calls
  = (Returned
       match create client (completionParamsOf modelName (testMessageOf req)) with
       | Completes response =>
           match choices response with
           | c :: _ =>
               {| status := 200;
                  json := TestResult true (modelId req) modelName
                            (testMessageOf req) c (usage response) |}
           | [] =>
               {| status := 500;
                  json := Failure (js "Failed to test model " ++ modelId req)
                            (js "Cannot read properties of undefined (reading 'message')") |}
           end
       | Rejects e =>
           {| status := 500;
              json := Failure (js "Failed to test model " ++ modelId req)
                        (messageOf e) |}
       end,
     calls ++ [(client, completionParamsOf modelName (testMessageOf req))]).
Proof.
  intros H.
  unfold postTestModel, tryCatch, bind, lift, client_chat_completions_create,
    firstChoice, ret.
  rewrite H. fold (testMessageOf req).
  unfold completionParamsOf.
  destruct (startsWith modelName (js "gpt-5"));
    (destruct (create client _) as [response|e]; [|reflexivity]);
    now destruct (choices response).
Qed.

(** X15. The test route always answers and never throws: with status 200
    and the test result when the model was selected, the provider completed
    and the completion has a first choice, whose content and usage it
    passes on; with status 500 and "Failed to test model <id>" in every
    other case, the details being the message of whatever was thrown. It
    makes one outbound call when the model was selected and none
    otherwise. *)
Theorem postTestModel_answers req calls :
  exists response calls2,
    post req calls = (Returned response, calls2)
    /\ match select (modelId req) with
       | Thrown e =>
           response
             = {| status := 500;
                  json := Failure (js "Failed to test model " ++ modelId req)
                            (messageOf e) |}
           /\ calls2 = calls
       | Returned (client, modelName) =>
           let params := completionParamsOf modelName (testMessageOf req) in
           calls2 = calls ++ [(client, params)]
           /\ match create client params with
              | Rejects e =>
                  response
                    = {| status := 500;
                         json := Failure
                                   (js "Failed to test model " ++ modelId req)
                                   (messageOf e) |}
              | Completes completion =>
                  match choices completion with
                  | [] =>
                      status response = 500
                      /\ exists details,
                           json response
                             = Failure
                                 (js "Failed to test model " ++ modelId req)
                                 details
                  | c :: _ =>
                      response
                        = {| status := 200;
                             json := TestResult true (modelId req) modelName
                                       (testMessageOf req) c
                                       (usage completion) |}
                  end
              end
       end.
Proof.
  destruct (select (modelId req)) as [[client modelName]|e] eqn:Hs.
  - rewrite (postTestModel_selected _ _ _ _ Hs). eexists. eexists.
    split; [reflexivity|]. cbn zeta. split; [reflexivity|].
    destruct (create client _) as [completion|e]; [|reflexivity].
    destruct (choices completion); [|reflexivity].
    split; [reflexivity|]. now eexists.
  - rewrite (postTestModel_select_throws _ _ _ _ _ _ Hs). eexists. eexists.
    split; [reflexivity|]. now split.
Qed.

(** X16. When the model is selected the test route makes one call, to the
    selected client, for the selected model name, with two messages: the
    system message, which names the model, and the user message, which is
    the message of the body or, when the body has none, "Hello, can you
    confirm you're working correctly?". For a model name that starts with
    "gpt-5" the call sets [max_completion_tokens] to 150 and neither
    [max_tokens] nor [temperature]; for any other it sets [max_tokens] to
    150 and [temperature] to 0.7 and no [max_completion_tokens]. *)
Theorem postTestModel_call req calls client modelName :
  select (modelId req) = Returned (client, modelName) ->
  exists params systemText,
    snd (post req calls) = calls ++ [(client, params)]
    /\ model params = modelName
    /\ messages params
       = [ (js "system", JsString systemText);
           (js "user",
            match assoc (js "message") (body req) with
            | JsUndefined =>
                JsString (js "Hello, can you confirm you're working correctly?")
            | message => message
            end) ]
    /\ occursIn modelName systemText
    /\ (if startsWith modelName (js "gpt-5")
        then max_completion_tokens params = Some 150%N
             /\ max_tokens params = None /\ temperature params = None
        else max_completion_tokens params = None
             /\ max_tokens params = Some 150%N
             /\ temperature params = Some (7 # 10)%Q).
Proof.
  intros Hs. rewrite (postTestModel_selected _ _ _ _ Hs). cbn [snd].
  eexists. eexists. split; [reflexivity|].
  unfold completionParamsOf, testMessageOf.
  destruct (startsWith modelName (js "gpt-5"));
    cbn [model messages max_completion_tokens max_tokens temperature];
    (split; [reflexivity|]);
    (split; [unfold orDefault; now destruct (assoc _ _)|]);
    (split; [exists (js "You are testing the "); eexists; reflexivity|]);
    now repeat split.
Qed.

End FurtherRouteProperties.

Lemma truthy_orElse_false v : truthy (orElse v (JsBool false)) = truthy v.
Proof. unfold orElse. now destruct (truthy v) eqn:E. Qed.

Lemma filter_map_comm {A B} (f : A -> B) (p : B -> bool) (l : list A) :
  List.filter p (map f l) = map f (List.filter (fun x => p (f x)) l).
Proof.
  induction l as [|x l IH]; [reflexivity|]. cbn.
  destruct (p (f x)); cbn; now rewrite IH.
Qed.

(** X17. When the configurations can be read the list route answers 200
    with one summary per configuration, in the order of the keys and under
    the key as id; [totalModels] is their number; [recommendedModels] is,
    in the same order, the summaries of exactly the configurations whose
    [isRecommended] is truthy; and the [isRecommended] of a summary is
    that of the configuration when truthy and [false] otherwise. When
    reading them throws it answers 500 with "Failed to fetch model
    configurations". *)
Theorem getTestModels_lists configurations :
  (forall e,
     TestModelsList.getTestModels (Thrown e)
     = {| TestModelsList.modelsStatus := 500;
          TestModelsList.modelsJson :=
            TestModelsList.ModelsFailure
              (js "Failed to fetch model configurations") |})
  /\ exists models recommended,
       TestModelsList.getTestModels (Returned configurations)
       = {| TestModelsList.modelsStatus := 200;
            TestModelsList.modelsJson :=
              TestModelsList.ModelList true models (length configurations)
                recommended |}
       /\ map TestModelsList.summaryId models = map fst configurations
       /\ recommended
          = map TestModelsList.summarize
              (List.filter
                 (fun entry => truthy (TestModelsList.isRecommended (snd entry)))
                 configurations)
       /\ (forall m, In m recommended -> In m models)
       /\ length recommended <= length configurations
       /\ Forall2
            (fun entry m =>
               TestModelsList.summaryIsRecommended m
               = if truthy (TestModelsList.isRecommended (snd entry))
                 then TestModelsList.isRecommended (snd entry)
                 else JsBool false)
            configurations models.
Proof.
  split; [reflexivity|].
  unfold TestModelsList.getTestModels. eexists. eexists.
  split; [now rewrite length_map|].
  split; [|split; [|split; [|split]]].
  - rewrite map_map. apply map_ext. now intros [key config].
  - rewrite filter_map_comm. f_equal.
    induction configurations as [|[key config] l IH]; [reflexivity|].
    cbn [List.filter TestModelsList.summarize TestModelsList.summaryIsRecommended snd].
    rewrite truthy_orElse_false, IH. reflexivity.
  - intros m H. apply filter_In in H. tauto.
  - rewrite <- (length_map TestModelsList.summarize configurations).
    apply filter_length_le.
  - induction configurations as [|[key config] l IH]; constructor; [|exact IH].
    reflexivity.
Qed.

(** * Further properties of the chat test module *)

Lemma trimStart_nil_iff s : trimStart s = [] <-> forallb isWhiteSpace s = true.
Proof.
  induction s as [|c s IH]; cbn [trimStart forallb]; [tauto|].
  destruct (isWhiteSpace c); cbn [andb]; [exact IH|].
  split; discriminate.
Qed.

Lemma trimStart_snoc s c :
  isWhiteSpace c = false -> trimStart (s ++ [c]) <> [].
Proof.
  intros Hc H. apply trimStart_nil_iff in H.
  rewrite forallb_app in H. cbn in H. rewrite Hc in H.
  now rewrite andb_false_r in H.
Qed.

(** [trim] leaves nothing exactly of the strings made of white space. *)
Lemma trim_nil_iff s : trim s = [] <-> forallb isWhiteSpace s = true.
Proof.
  rewrite <- trimStart_nil_iff. unfold trim, trimEnd. split.
  - intros H. destruct (trimStart s) as [|c t] eqn:E; [reflexivity|].
    exfalso. pose proof (trimStart_head s c) as Hc. rewrite E in Hc.
    specialize (Hc eq_refl).
    apply (f_equal (@rev _)) in H. rewrite rev_involutive in H.
    cbn [rev] in H. exact (trimStart_snoc _ _ Hc H).
  - now intros ->.
Qed.

Section ChatTestModuleProperties.

Import ChatTestModule.

(** X18. [sendMessage] starts a request exactly when the input holds
    something other than white space and no request is under way;
    otherwise it sends nothing, shows nothing and leaves the state as it
    is. Once a request is under way no other starts, whatever is typed
    meanwhile, until the request settles. *)
Theorem sendMessage_guard now now' agentId outcome st :
  (sendMessage_begin now agentId st = None
   <-> forallb isWhiteSpace (currentMessage st) = true \/ isLoading st = true)
  /\ (sendMessage_begin now agentId st = None ->
      sendMessage now now' agentId outcome st = (st, [], []))
  /\ (forall st1 request typed,
        sendMessage_begin now agentId st = Some (st1, request) ->
        sendMessage_begin now' agentId
          {| messages := messages st1; currentMessage := typed;
             isLoading := isLoading st1 |} = None)
  /\ isLoading (fst (sendMessage_settle now' outcome st)) = false.
Proof.
  split; [|split; [|split]].
  - unfold sendMessage_begin. rewrite <- trim_nil_iff.
    destruct (trim (currentMessage st)) as [|c t]; cbn [length Nat.eqb orb].
    + split; [intros _; now left | reflexivity].
    + destruct (isLoading st).
      * split; [intros _; now right | reflexivity].
      * split; [discriminate | intros [H|H]; discriminate H].
  - intros H. unfold sendMessage. now rewrite H.
  - intros st1 request typed H. unfold sendMessage_begin in *.
    destruct (_ || _); [discriminate|]. injection H as <- _.
    cbn [isLoading]. now rewrite orb_true_r.
  - now destruct outcome.
Qed.

(** X19. A [sendMessage] that starts sends one request, with the text as
    typed, the agent id and the messages as they were before (the new user
    message is not among them). If the request is answered the messages
    are the old ones, then the user message with the text as typed, then
    the assistant message, two more than before, and no toast is shown; if
    it fails they are the old ones and the user message, one more than
    before, and one "destructive" toast is shown. Either way the input is
    cleared and the loading flag is off. *)
Theorem sendMessage_accounting now now' agentId outcome st :
  forallb isWhiteSpace (currentMessage st) = false ->
  isLoading st = false ->
  exists st' toasts userMessage,
    sendMessage now now' agentId outcome st
      = (st',
         [ {| requestMessage := currentMessage st;
              requestAgentId := agentId;
              requestMessages := messages st |} ],
         toasts)
    /\ userMessage
       = {| role := js "user"; content := JsString (currentMessage st);
            timestamp := now |}
    /\ currentMessage st' = []
    /\ isLoading st' = false
    /\ match outcome with
       | Responds responseData =>
           toasts = []
           /\ length (messages st') = length (messages st) + 2
           /\ exists assistantMessage,
                messages st' = messages st ++ [userMessage; assistantMessage]
                /\ role assistantMessage = js "assistant"
                /\ timestamp assistantMessage = now'
       | Rejects =>
           messages st' = messages st ++ [userMessage]
           /\ length (messages st') = length (messages st) + 1
           /\ map toastVariant toasts = [js "destructive"]
       end.
Proof.
  intros Hblank Hload. unfold sendMessage, sendMessage_begin.
  assert (Ht : Nat.eqb (length (trim (currentMessage st))) 0 = false).
  { destruct (trim (currentMessage st)) eqn:E; [|reflexivity].
    apply trim_nil_iff in E. congruence. }
  rewrite Ht, Hload. cbn [orb].
  destruct outcome as [responseData|]; cbn [sendMessage_settle messages
    currentMessage isLoading].
  - eexists. eexists. eexists. split; [reflexivity|].
    split; [reflexivity|]. cbn [messages currentMessage isLoading].
    split; [reflexivity|]. split; [reflexivity|]. split; [reflexivity|].
    split; [rewrite !length_app; cbn; lia|].
    eexists. rewrite <- app_assoc. split; [reflexivity|]. now split.
  - eexists. eexists. eexists. split; [reflexivity|].
    split; [reflexivity|]. cbn [messages currentMessage isLoading].
    split; [reflexivity|]. split; [reflexivity|]. split; [reflexivity|].
    split; [rewrite length_app; cbn; lia | reflexivity].
Qed.

(** X20. When a request settles, the outcome is applied to the state of
    that moment: what was typed meanwhile stays in the input, and an answer
    adds one assistant message after whatever messages there are. Its
    content is the [message] of the response data when that is truthy and
    "I'm here to help!" otherwise (no data, no [message], an empty one), so
    it is never empty. *)
Theorem sendMessage_settle_content now responseData st :
  let st' := fst (sendMessage_settle now (Responds responseData) st) in
  currentMessage st' = currentMessage st
  /\ exists assistantMessage,
       messages st' = messages st ++ [assistantMessage]
       /\ truthy (content assistantMessage) = true
       /\ (truthy (getPropOptional responseData (js "message")) = true ->
           content assistantMessage
             = getPropOptional responseData (js "message"))
       /\ (truthy (getPropOptional responseData (js "message")) = false ->
           content assistantMessage = JsString (js "I'm here to help!"))
       /\ (responseData = JsNull \/ responseData = JsUndefined
           \/ responseData = JsObject [] ->
           content assistantMessage = JsString (js "I'm here to help!")).
Proof.
  cbn zeta. cbn [sendMessage_settle fst messages currentMessage].
  split; [reflexivity|]. eexists. split; [reflexivity|].
  cbn [content]. unfold orElse.
  destruct (truthy (getPropOptional responseData (js "message"))) eqn:E.
  - split; [exact E|]. split; [reflexivity|]. split; [discriminate|].
    intros [->|[->| ->]]; discriminate E.
  - split; [reflexivity|]. split; [discriminate|]. now split.
Qed.

End ChatTestModuleProperties.

(** * Further properties of the content studio *)

Section ContentStudioProperties.

Import ContentStudio.

(** *** Objects *)

Lemma insertSorted_perm i entry l :
  Permutation (insertSorted i entry l) ((i, entry) :: l).
Proof.
  induction l as [|[j entry'] l IH]; cbn [insertSorted]; [reflexivity|].
  destruct (i <=? j)%N; [reflexivity|].
  rewrite IH. apply perm_swap.
Qed.

Lemma indexEntries_perm obj :
  Permutation (map snd (indexEntries obj)) (List.filter isIndexKey obj).
Proof.
  induction obj as [|entry obj IH]; [reflexivity|].
  cbn [indexEntries fold_right List.filter]. unfold isIndexKey at 1.
  fold (indexEntries obj).
  destruct (arrayIndex (fst entry)) as [i|]; [|exact IH].
  rewrite insertSorted_perm. cbn [map snd]. now rewrite IH.
Qed.

Lemma filter_split_perm {A} (f : A -> bool) (l : list A) :
  Permutation (List.filter f l ++ List.filter (fun x => negb (f x)) l) l.
Proof.
  induction l as [|x l IH]; [reflexivity|]. cbn [List.filter].
  destruct (f x); cbn [negb app].
  - now rewrite IH.
  - rewrite <- Permutation_middle. now rewrite IH.
Qed.

(** [Object.entries] lists every property once. *)
Lemma Object_entries_perm obj : Permutation (Object_entries obj) obj.
Proof.
  unfold Object_entries. rewrite indexEntries_perm. apply filter_split_perm.
Qed.

Lemma setProp_keys key value obj :
  (In key (map fst obj) /\ map fst (setProp key value obj) = map fst obj)
  \/ (~ In key (map fst obj)
      /\ map fst (setProp key value obj) = map fst obj ++ [key]).
Proof.
  induction obj as [|[k v] obj IH]; [right; now split|]. cbn [setProp map fst].
  destruct (decide (k = key)) as [->|Hne].
  - left. split; [now left | reflexivity].
  - cbn [map fst]. destruct IH as [[Hin ->]|[Hnot ->]].
    + left. split; [now right | reflexivity].
    + right. split; [intros [H|H]; congruence | reflexivity].
Qed.

Lemma setProp_NoDup key value obj :
  List.NoDup (map fst obj) -> List.NoDup (map fst (setProp key value obj)).
Proof.
  intros H. destruct (setProp_keys key value obj) as [[_ ->]|[Hnot ->]];
    [exact H|].
  apply NoDup_ListNoDup. apply NoDup_ListNoDup in H.
  apply NoDup_app. split; [exact H|]. split.
  - intros x Hx Hk. apply list_elem_of_In in Hx. apply list_elem_of_In in Hk.
    destruct Hk as [<-|[]]. contradiction.
  - apply NoDup_singleton.
Qed.

Lemma setProp_In key value obj :
  In (key, value) (setProp key value obj).
Proof.
  induction obj as [|[k v] obj IH]; cbn [setProp]; [now left|].
  destruct (decide (k = key)) as [->|Hne]; [now left | now right].
Qed.

Lemma setProp_other key value obj k v :
  k <> key -> (In (k, v) (setProp key value obj) <-> In (k, v) obj).
Proof.
  intros Hne. induction obj as [|[k' v'] obj IH]; cbn [setProp].
  - split; [intros [H|[]]; congruence | intros []].
  - destruct (decide (k' = key)) as [->|Hne'].
    + split; (intros [H|H]; [congruence | now right]).
    + cbn [In]. now rewrite IH.
Qed.

Lemma NoDup_keys_value (obj : Obj) k v v' :
  List.NoDup (map fst obj) -> In (k, v) obj -> In (k, v') obj -> v = v'.
Proof.
  induction obj as [|[k0 v0] obj IH]; [intros _ []|].
  cbn [map fst]. intros Hnd H1 H2. apply NoDup_ListNoDup in Hnd.
  apply NoDup_cons in Hnd. destruct Hnd as [Hnot Hnd].
  rewrite list_elem_of_In in Hnot.
  destruct H1 as [H1|H1], H2 as [H2|H2].
  - congruence.
  - injection H1 as <- <-. exfalso. apply Hnot.
    change k0 with (fst (k0, v')). now apply in_map.
  - injection H2 as <- <-. exfalso. apply Hnot.
    change k0 with (fst (k0, v)). now apply in_map.
  - apply IH; [now apply NoDup_ListNoDup | exact H1 | exact H2].
Qed.

(** *** Strings *)

Lemma startsWith_iff s p :
  TestModels.startsWith s p = true <-> exists rest, s = p ++ rest.
Proof.
  revert s. induction p as [|c p IH]; intros s.
  - split; [intros _; now exists s | intros _; now destruct s].
  - destruct s as [|x s]; cbn [TestModels.startsWith].
    + split; [discriminate | intros (rest & H); discriminate H].
    + rewrite andb_true_iff, N.eqb_eq, IH. split.
      * intros (-> & rest & ->). now exists rest.
      * intros (rest & H). injection H as -> ->.
        split; [reflexivity | now exists rest].
Qed.

(** [includes] is the test for an occurrence. *)
Lemma includes_iff s sub : includes s sub = true <-> occursIn sub s.
Proof.
  induction s as [|c s IH]; cbn [includes]; rewrite orb_true_iff, startsWith_iff.
  - split.
    + intros [(rest & H)|H]; [|discriminate]. exists [], rest. exact H.
    + intros ([|x b] & a & H); [left; now exists a | discriminate H].
  - rewrite IH. split.
    + intros [(rest & H)|(b & a & H)].
      * exists [], rest. exact H.
      * exists (c :: b), a. now rewrite H.
    + intros ([|x b] & a & H).
      * left. now exists a.
      * right. injection H as -> ->. now exists b, a.
Qed.

Lemma split_cons sep s : exists word words, split sep s = word :: words.
Proof.
  induction s as [|c s (w & ws & IH)]; cbn [split]; [now eexists; eexists|].
  destruct (c =? sep)%N; [now eexists; eexists|].
  rewrite IH. now eexists; eexists.
Qed.

Lemma split_length sep s :
  length (split sep s) = S (count_occ N.eq_dec s sep).
Proof.
  induction s as [|c s IH]; [reflexivity|]. cbn [split count_occ].
  destruct (N.eqb_spec c sep) as [->|Hne].
  - destruct (N.eq_dec sep sep); [|contradiction]. cbn. now rewrite IH.
  - destruct (N.eq_dec c sep); [contradiction|].
    destruct (split_cons sep s) as (w & ws & E). rewrite E in *. exact IH.
Qed.

Lemma split_no_sep sep s word : In word (split sep s) -> ~ In sep word.
Proof.
  revert word. induction s as [|c s IH]; intros word; cbn [split].
  - intros [<-|[]] [].
  - destruct (N.eqb_spec c sep) as [->|Hne].
    + intros [<-|H]; [intros [] | now apply IH].
    + destruct (split_cons sep s) as (w & ws & E). rewrite E in *.
      intros [<-|H].
      * intros [Hc|Hc]; [congruence|]. apply (IH w); [now left | exact Hc].
      * apply IH. now right.
Qed.

(** Splitting at a separator and joining with it gives the string back. *)
Lemma split_join sep s : join [sep] (split sep s) = s.
Proof.
  induction s as [|c s IH]; [reflexivity|]. cbn [split].
  destruct (split_cons sep s) as (w & ws & E). rewrite E in *.
  destruct (N.eqb_spec c sep) as [->|Hne].
  - change (join [sep] ([] :: w :: ws))
      with ([] ++ [sep] ++ join [sep] (w :: ws)).
    now rewrite IH.
  - destruct ws as [|w' ws].
    + change (join [sep] [w]) with w in IH. now rewrite <- IH.
    + change (join [sep] ((c :: w) :: w' :: ws))
        with (c :: (w ++ [sep] ++ join [sep] (w' :: ws))).
      change (join [sep] (w :: w' :: ws))
        with (w ++ [sep] ++ join [sep] (w' :: ws)) in IH.
      now rewrite IH.
Qed.

Lemma In_join_occursIn sep l word :
  In word l -> occursIn word (join sep l).
Proof.
  induction l as [|x l IH]; [intros []|].
  destruct l as [|y l].
  - intros [<-|[]]. apply occursIn_refl.
  - change (join sep (x :: y :: l)) with (x ++ sep ++ join sep (y :: l)).
    intros [<-|H].
    + now exists [], (sep ++ join sep (y :: l)).
    + destruct (IH H) as (b & a & ->).
      exists (x ++ sep ++ b), a. now rewrite <- !app_assoc.
Qed.

Lemma split_words sep s word :
  In word (split sep s) -> ~ In sep word /\ occursIn word s.
Proof.
  intros H. split; [now apply (split_no_sep sep s)|].
  pose proof (In_join_occursIn [sep] _ _ H) as Ho.
  now rewrite split_join in Ho.
Qed.

(** *** The preview request *)

Lemma handleSendMessage_Some st request :
  handleSendMessage st = Some request ->
  exists file connection,
    selectedFile st = Some file /\ selectedConnection st = Some connection
    /\ forallb isWhiteSpace (chatMessage st) = false
    /\ request
       = {| previewRepo := connectionId connection;
            previewFilePath := filePath file;
            previewPatches :=
              if 0 <? length (map patchOf (Object_entries (fieldEdits st)))
              then Some (map patchOf (Object_entries (fieldEdits st)))
              else None;
            previewPrompt := chatMessage st;
            previewGenerateContent :=
              includes (chatMessage st) (js "improve")
              || includes (chatMessage st) (js "optimize");
            previewUseSpyFu := nonEmpty (competitorDomain st);
            previewTargetKeywords :=
              if nonEmpty (targetKeywords st)
              then Some (map trim (split 44%N (targetKeywords st)))
              else None;
            previewCompetitorDomain :=
              if nonEmpty (competitorDomain st)
              then Some (competitorDomain st) else None |}.
Proof.
  unfold handleSendMessage.
  destruct (selectedFile st) as [file|]; [|discriminate].
  destruct (selectedConnection st) as [connection|]; [|discriminate].
  destruct (trim (chatMessage st)) as [|c t] eqn:E; cbn [length Nat.eqb];
    [discriminate|].
  intros [= <-]. exists file, connection. repeat split.
  destruct (forallb isWhiteSpace (chatMessage st)) eqn:Hb; [|reflexivity].
  apply trim_nil_iff in Hb. congruence.
Qed.

(** X21. [handleSendMessage] sends a preview request exactly when a file
    and a connection are selected and the chat message holds something
    other than white space. The request goes to the selected repository,
    names the path of the selected file and carries the chat message as
    typed; [useSpyFu] is set exactly when a competitor domain is sent, which
    is when the domain field is not empty. *)
Theorem handleSendMessage_guard st :
  (handleSendMessage st = None
   <-> selectedFile st = None \/ selectedConnection st = None
       \/ forallb isWhiteSpace (chatMessage st) = true)
  /\ (forall request,
        handleSendMessage st = Some request ->
        selectedConnection st
          = Some {| connectionId := previewRepo request |}
        /\ option_map filePath (selectedFile st)
           = Some (previewFilePath request)
        /\ previewPrompt request = chatMessage st
        /\ (previewUseSpyFu request = true
            <-> previewCompetitorDomain request = Some (competitorDomain st))
        /\ (previewUseSpyFu request = false
            <-> previewCompetitorDomain request = None)
        /\ (previewUseSpyFu request = true <-> competitorDomain st <> [])).
Proof.
  split.
  - unfold handleSendMessage.
    destruct (selectedFile st) as [file|]; [|split; [intros _; now left | reflexivity]].
    destruct (selectedConnection st) as [connection|];
      [|split; [intros _; right; now left | reflexivity]].
    rewrite <- trim_nil_iff.
    destruct (trim (chatMessage st)) as [|c t]; cbn [length Nat.eqb].
    + split; [intros _; right; now right | reflexivity].
    + split; [discriminate | intros [H|[H|H]]; discriminate H].
  - intros request H.
    destruct (handleSendMessage_Some _ _ H)
      as (file & [cid] & Hf & Hc & _ & ->).
    cbn [previewRepo previewFilePath previewPrompt previewUseSpyFu
         previewCompetitorDomain connectionId].
    rewrite Hf, Hc. cbn [option_map].
    split; [reflexivity|]. split; [reflexivity|]. split; [reflexivity|].
    unfold nonEmpty.
    destruct (competitorDomain st) as [|c d]; cbn [length Nat.eqb negb].
    + repeat split; try discriminate; try reflexivity; intros H'; congruence.
    + repeat split; try discriminate; try reflexivity.
Qed.

(** X22. After [handleFieldEdit path value] the next preview request
    carries patches, among them the replacement of [path] by [value] and no
    other patch for that path; every patch is a "replace", no two patches
    name the same path, and the patches for the other paths are those of
    the edits made before. *)
Theorem handleFieldEdit_patches path value st request :
  List.NoDup (map fst (fieldEdits st)) ->
  handleSendMessage (handleFieldEdit path value st) = Some request ->
  exists patches,
    previewPatches request = Some patches
    /\ In {| patchPath := path; patchValue := value;
             patchOperation := js "replace" |} patches
    /\ (forall p, In p patches -> patchOperation p = js "replace")
    /\ (forall p, In p patches -> patchPath p = path -> patchValue p = value)
    /\ List.NoDup (map patchPath patches)
    /\ (forall k v, k <> path ->
          (In {| patchPath := k; patchValue := v;
                 patchOperation := js "replace" |} patches
           <-> In (k, v) (fieldEdits st))).
Proof.
  intros Hnd H.
  destruct (handleSendMessage_Some _ _ H) as (file & conn & _ & _ & _ & ->).
  cbn [previewPatches handleFieldEdit fieldEdits].
  set (edits := setProp path value (Object_entries (fieldEdits st))).
  assert (Hperm : Permutation (Object_entries edits) edits)
    by apply Object_entries_perm.
  assert (Hnd0 : List.NoDup (map fst (Object_entries (fieldEdits st)))).
  { eapply Permutation_NoDup; [|exact Hnd].
    apply Permutation_map. symmetry. apply Object_entries_perm. }
  assert (Hnd1 : List.NoDup (map fst edits)) by now apply setProp_NoDup.
  assert (Hin : forall k v, In (k, v) (Object_entries edits) <-> In (k, v) edits).
  { intros k v. split; apply Permutation_in; [exact Hperm | now symmetry]. }
  assert (Hpatch : forall p, In p (map patchOf (Object_entries edits)) <->
            patchOperation p = js "replace"
            /\ In (patchPath p, patchValue p) edits).
  { intros [k v o]. rewrite in_map_iff. cbn [patchPath patchValue patchOperation].
    split.
    - intros ([k' v'] & Hp & Hi). injection Hp as -> -> <-.
      split; [reflexivity | now apply Hin].
    - intros [-> Hi]. exists (k, v). split; [reflexivity | now apply Hin]. }
  assert (Hne : (0 <? length (map patchOf (Object_entries edits))) = true).
  { apply Nat.ltb_lt. rewrite length_map, (Permutation_length Hperm).
    pose proof (setProp_In path value (Object_entries (fieldEdits st))) as Hi.
    fold edits in Hi. destruct edits; [contradiction | cbn; lia]. }
  rewrite Hne. eexists. split; [reflexivity|].
  split; [|split; [|split; [|split]]].
  - apply Hpatch. split; [reflexivity|]. apply setProp_In.
  - intros p Hp. now apply Hpatch in Hp.
  - intros p Hp Hpath. apply Hpatch in Hp. destruct Hp as [_ Hp].
    rewrite Hpath in Hp.
    apply (NoDup_keys_value edits path _ _ Hnd1 Hp), setProp_In.
  - rewrite map_map. cbn [patchOf patchPath].
    eapply Permutation_NoDup; [|exact Hnd1].
    apply Permutation_map. now symmetry.
  - intros k v Hk. rewrite Hpatch. cbn [patchPath patchValue patchOperation].
    unfold edits. rewrite (setProp_other _ _ _ _ _ Hk).
    split.
    + intros [_ Hi]. eapply Permutation_in; [apply Object_entries_perm | exact Hi].
    + intros Hi. split; [reflexivity|].
      eapply Permutation_in; [symmetry; apply Object_entries_perm | exact Hi].
Qed.

(** X23. The target keywords of a preview request are the pieces of the
    keywords field between its commas, each trimmed: one more keyword than
    there are commas, none with a comma in it and none that begins or ends
    with white space, each an excerpt of the field (an empty piece gives an
    empty keyword); an empty field sends no keywords at all. *)
Theorem handleSendMessage_keywords st request :
  handleSendMessage st = Some request ->
  (targetKeywords st = [] -> previewTargetKeywords request = None)
  /\ (targetKeywords st <> [] ->
      exists kws,
        previewTargetKeywords request = Some kws
        /\ length kws = S (count_occ N.eq_dec (targetKeywords st) 44%N)
        /\ forall kw, In kw kws ->
             ~ In 44%N kw
             /\ occursIn kw (targetKeywords st)
             /\ (forall c, head kw = Some c -> isWhiteSpace c = false)
             /\ (forall c, last kw = Some c -> isWhiteSpace c = false)).
Proof.
  intros H.
  destruct (handleSendMessage_Some _ _ H) as (file & conn & _ & _ & _ & ->).
  cbn [previewTargetKeywords]. unfold nonEmpty. split.
  - now intros ->.
  - intros Hne. destruct (targetKeywords st) as [|c t] eqn:E; [contradiction|].
    cbn [length Nat.eqb negb]. eexists. split; [reflexivity|].
    split; [now rewrite length_map, split_length|].
    intros kw Hkw. apply in_map_iff in Hkw. destruct Hkw as (piece & <- & Hp).
    destruct (split_words _ _ _ Hp) as [Hno Hocc].
    pose proof (trim_occursIn piece) as Htp.
    split; [|split; [|apply trim_ends]].
    + intros Hc. apply Hno. destruct Htp as (b & a & ->).
      apply in_or_app. right. apply in_or_app. now left.
    + now apply (occursIn_trans _ piece).
Qed.

(** X24. The [generateContent] flag of a preview request is set exactly
    when the chat message contains "improve" or "optimize", in lower case,
    anywhere in it. *)
Theorem handleSendMessage_generateContent st request :
  handleSendMessage st = Some request ->
  (previewGenerateContent request = true
   <-> occursIn (js "improve") (chatMessage st)
       \/ occursIn (js "optimize") (chatMessage st)).
Proof.
  intros H.
  destruct (handleSendMessage_Some _ _ H) as (file & conn & _ & _ & _ & ->).
  cbn [previewGenerateContent]. now rewrite orb_true_iff, !includes_iff.
Qed.

(** X25. Once a preview has arrived, [handleApplyChanges] (with a file and
    a connection selected) sends exactly the applied patches of that
    preview, for the path of the selected file, with the commit message
    "Update <file name> via AI Agent Builder"; the preview also added two
    chat messages, the user's and the assistant's, and cleared the chat
    input, the edits staying. Once the changes are applied the preview and
    the edits are gone: nothing more can be applied, and a next preview
    request carries no patches. *)
Theorem preview_then_apply data now1 now2 st file connection :
  selectedFile st = Some file ->
  selectedConnection st = Some connection ->
  let st1 := previewSucceeded data now1 now2 st in
  let st2 := applySucceeded st1 in
  handleApplyChanges st1
    = Some {| applyRepo := connectionId connection;
              applyFilePath := filePath file;
              applyPatches := appliedPatches data;
              applyCommitMessage :=
                js "Update " ++ fileName file ++ js " via AI Agent Builder" |}
  /\ map chatRole (chatMessages st1)
     = map chatRole (chatMessages st) ++ [js "user"; js "assistant"]
  /\ chatMessage st1 = []
  /\ fieldEdits st1 = fieldEdits st
  /\ handleSendMessage st1 = None
  /\ handleApplyChanges st2 = None
  /\ (forall typed request,
        handleSendMessage
          {| selectedConnection := selectedConnection st2;
             selectedFile := selectedFile st2;
             currentPreview := currentPreview st2;
             chatMessage := typed;
             targetKeywords := targetKeywords st2;
             competitorDomain := competitorDomain st2;
             chatMessages := chatMessages st2;
             fieldEdits := fieldEdits st2 |} = Some request ->
        previewPatches request = None).
Proof.
  intros Hf Hc. cbn zeta.
  unfold handleApplyChanges, previewSucceeded, applySucceeded.
  cbn [currentPreview selectedFile selectedConnection chatMessages chatMessage
       fieldEdits]. rewrite Hf, Hc.
  split; [reflexivity|]. split; [now rewrite map_app|].
  split; [reflexivity|]. split; [reflexivity|].
  split; [unfold handleSendMessage;
          cbn [selectedFile selectedConnection chatMessage];
          rewrite ?Hf, ?Hc; reflexivity|].
  split; [reflexivity|].
  intros typed request H.
  destruct (handleSendMessage_Some _ _ H) as (f & c & _ & _ & _ & ->).
  reflexivity.
Qed.

End ContentStudioProperties.

(** ** The further properties on the example data *)

Lemma startContentSession_round_trip_witness :
  exists session w',
    startContentSession service0 2 9%N (js "bob") None None JsUndefined world1
      = (Returned session, w')
    /\ getChatSession service0 2 (js "bob") w' = (Returned (Some session), w')
    /\ messages session = MessagesArray []
    /\ sessionType session = js "content_creation".
Proof.
  destruct (startContentSession_round_trip service0 2 9%N (js "bob") None None
              JsUndefined world1)
    as (session & w' & Hs & Hg & Hm & Ht & _).
  - intros row [<-|[]]. discriminate.
  - exists session, w'. now repeat split.
Defined.



Lemma chatWithGemini_null_context_witness :
  chatWithGemini plainStringify plainISO envUp service0 1
    (js "Write an intro about SEO") (js "alice") JsNull world1
  = (Thrown (Error (js "Failed to process chat message")), world1).
Proof.
  exact (chatWithGemini_null_context plainStringify plainISO envUp service0 1
           (js "Write an intro about SEO") (js "alice") world1 session1
           eq_refl).
Defined.

Lemma chatWithGemini_reply_witness :
  exists reply,
    fst (chatWithGemini plainStringify plainISO envUp service0 1
           (js "Write an intro about SEO") (js "alice") JsUndefined world1)
    = Returned reply
    /\ sessionId reply = 1%Z
    /\ suggestions reply = extractSuggestions (message reply)
    /\ length (suggestions reply) <= 5.
Proof.
  destruct (chatWithGemini plainStringify plainISO envUp service0 1
              (js "Write an intro about SEO") (js "alice") JsUndefined world1)
    as [[reply|e] w'] eqn:E; [|vm_compute in E; discriminate E].
  destruct (chatWithGemini_reply plainStringify plainISO envUp service0 1
              (js "Write an intro about SEO") (js "alice") JsUndefined world1
              session1 reply w' eq_refl E) as (Hid & _ & Hs & Hl & _).
  exists reply. now repeat split.
Defined.

Lemma generateHugoFrontmatter_outcome_witness :
  fst (generateHugoFrontmatter plainStringify envDown service0 (js "About")
         (js "We are a small team.") (js "page") None (JsObject []) world1)
  = Thrown (Error (js "Failed to generate frontmatter")).
Proof.
  destruct (proj1 (proj2 (generateHugoFrontmatter_outcome plainStringify
                            envDown service0 (js "About")
                            (js "We are a small team.") (js "page") None
                            (JsObject []) world1)))
    as (keyCount & _ & H); [discriminate|].
  cbn zeta in H. rewrite H. reflexivity.
Defined.

Lemma extractSuggestions_excerpts_witness :
  occursIn (js "adding a table of contents")
    (js "Consider adding a table of contents.").
Proof.
  apply (proj1 (extractSuggestions_excerpts
                  (js "Consider adding a table of contents."))).
  left. reflexivity.
Defined.

Lemma extractSuggestions_no_full_stop_witness :
  ~ In 46%N (js "adding a table of contents").
Proof.
  apply (extractSuggestions_no_full_stop
           (js "Consider adding a table of contents.")).
  left. reflexivity.
Defined.

Lemma extractSuggestions_trimmed_witness :
  exists first final,
    head (js "adding a table of contents") = Some first
    /\ last (js "adding a table of contents") = Some final
    /\ isWhiteSpace first = false /\ isWhiteSpace final = false.
Proof.
  apply (extractSuggestions_trimmed
           (js "Consider adding a table of contents.")).
  left. reflexivity.
Defined.

Lemma sendMessage_accounting_witness :
  exists st' toasts,
    ChatTestModule.sendMessage 1%N 2%N (Some 10%Z)
      (ChatTestModule.Responds (JsObject [(js "message", JsString (js "Hi!"))]))
      uiState1
    = (st',
       [ {| ChatTestModule.requestMessage := js "Hello there";
            ChatTestModule.requestAgentId := Some 10%Z;
            ChatTestModule.requestMessages := [] |} ],
       toasts)
    /\ length (ChatTestModule.messages st') = 2
    /\ toasts = [].
Proof.
  destruct (sendMessage_accounting 1%N 2%N (Some 10%Z)
              (ChatTestModule.Responds
                 (JsObject [(js "message", JsString (js "Hi!"))]))
              uiState1 eq_refl eq_refl)
    as (st' & toasts & userMessage & Hs & _ & _ & _ & Ht & Hl & _).
  exists st', toasts. split; [exact Hs|]. split; [exact Hl | exact Ht].
Defined.

Lemma handleFieldEdit_patches_witness :
  exists request patches,
    ContentStudio.handleSendMessage
      (ContentStudio.handleFieldEdit (js "title") (js "About our team") studio1)
    = Some request
    /\ ContentStudio.previewPatches request = Some patches
    /\ In {| ContentStudio.patchPath := js "title";
             ContentStudio.patchValue := js "About our team";
             ContentStudio.patchOperation := js "replace" |} patches
    /\ List.NoDup (map ContentStudio.patchPath patches).
Proof.
  destruct (ContentStudio.handleSendMessage
              (ContentStudio.handleFieldEdit (js "title")
                 (js "About our team") studio1))
    as [request|] eqn:E; [|vm_compute in E; discriminate E].
  destruct (handleFieldEdit_patches (js "title") (js "About our team") studio1
              request) as (patches & Hp & Hin & _ & _ & Hnd & _).
  - constructor; [intros [] | constructor].
  - exact E.
  - exists request, patches. now repeat split.
Defined.

Lemma handleSendMessage_keywords_witness :
  exists request kws,
    ContentStudio.handleSendMessage studio1 = Some request
    /\ ContentStudio.previewTargetKeywords request = Some kws
    /\ length kws = 3.
Proof.
  destruct (ContentStudio.handleSendMessage studio1)
    as [request|] eqn:E; [|vm_compute in E; discriminate E].
  destruct (handleSendMessage_keywords studio1 request E) as [_ H].
  destruct H as (kws & Hk & Hl & _); [discriminate|].
  exists request, kws. split; [reflexivity|]. split; [exact Hk|].
  rewrite Hl. reflexivity.
Defined.

Lemma handleSendMessage_generateContent_witness :
  exists request,
    ContentStudio.handleSendMessage studio1 = Some request
    /\ ContentStudio.previewGenerateContent request = true.
Proof.
  destruct (ContentStudio.handleSendMessage studio1)
    as [request|] eqn:E; [|vm_compute in E; discriminate E].
  exists request. split; [reflexivity|].
  apply (handleSendMessage_generateContent studio1 request E).
  left. exists (js "Please "), (js " the intro"). reflexivity.
Defined.

Lemma preview_then_apply_witness :
  ContentStudio.handleApplyChanges
    (ContentStudio.previewSucceeded preview1 (js "t1") (js "t2") studio1)
  = Some {| ContentStudio.applyRepo := 7;
            ContentStudio.applyFilePath := js "content/about.md";
            ContentStudio.applyPatches := ContentStudio.appliedPatches preview1;
            ContentStudio.applyCommitMessage :=
              js "Update about.md via AI Agent Builder" |}.
Proof.
  exact (proj1 (preview_then_apply preview1 (js "t1") (js "t2") studio1
                  {| ContentStudio.fileName := js "about.md";
                     ContentStudio.filePath := js "content/about.md" |}
                  {| ContentStudio.connectionId := 7 |} eq_refl eq_refl)).
Defined.

Lemma postTestModel_call_witness :
  exists params,
    snd (TestModels.postTestModel jsstring
           (fun _ => Returned (js "xai", js "grok-4"))
           TestModels.anyCompletion TestModels.unknownRequest [])
    = [(js "xai", params)]
    /\ TestModels.max_tokens params = Some 150%N
    /\ TestModels.max_completion_tokens params = None.
Proof.
  destruct (postTestModel_call jsstring
              (fun _ => Returned (js "xai", js "grok-4"))
              TestModels.anyCompletion TestModels.unknownRequest []
              (js "xai") (js "grok-4") eq_refl)
    as (params & systemText & Hc & _ & _ & _ & Hp).
  exists params. split; [exact Hc|].
  change (TestModels.startsWith (js "grok-4") (js "gpt-5")) with false in Hp.
  now destruct Hp as (H1 & H2 & _).
Defined.
